(** * sloggcp: a shallow embedding of the GCP slog handler

    The development follows the Go package file by file:
    - the part of [log/slog] the package consumes (values, attributes,
      records, handler options);
    - [sloggcp.go]: severity mapping, value extraction, the handler;
    - [error_reporting.go]: error-report synthesis;
    - [replace.go]: the stand-alone [ReplaceAttr] for [slog.JSONHandler].

    Go maps are finite maps ([gmap string _]); the maps that [Handle]
    allocates and keeps writing to after it has stored them in another map
    live in an explicit heap and are stored by reference. *)

From Stdlib Require Import ZArith String List Lia.
From stdpp Require Import gmap strings list fin_maps pretty.

Set Warnings "-register-all".

Open Scope string_scope.
Open Scope Z_scope.
Open Scope list_scope.

(* ===================================================================== *)
(** ** Data shared by the package and its callers                         *)
(* ===================================================================== *)

(** [slog.Level] is a Go [int]; the handler only compares levels and the
    thresholds are small constants, so levels are integers. *)
Definition Level := Z.

(** [slog.Source]: the call site of a log event. *)
Record Source := mkSource {
  Function : string;
  File : string;
  Line : Z
}.

(** [ReportLocation] of error_reporting.go. *)
Record ReportLocation := mkReportLocation {
  FilePath : string;
  LineNumber : Z;
  FunctionName : string
}.

(** [slog.Value], [slog.Attr] and the values of user-defined Go types.

    A [Dyn] describes a value of a user-defined type by what the handler
    can observe of it: its dynamic type name ([%T]), its default rendering
    ([%v] when it is neither an error nor a Stringer) and the result of
    every method the package probes by interface assertion.  A method that
    the type does not have is [None].  The methods take no argument and are
    taken to be pure, so each is given by its result; [LogValue] results
    are finite, which is the termination assumption [extractValue] makes of
    its callers.

    The kinds of [slog.Value] modelled are string, int64, bool, group and
    any; [LevelValue] and [SourceValue] are the any-kinded values holding a
    [slog.Level] and a [*slog.Source] (nil is [None]), which is how the
    built-in attributes reach a [ReplaceAttr] hook. *)
Inductive Value : Type :=
  | StringValue (s : string)
  | Int64Value (n : Z)
  | BoolValue (b : bool)
  | GroupValue (attrs : list Attr)
  | LevelValue (l : Level)
  | SourceValue (s : option Source)
  | AnyValue (o : Dyn)
with Attr : Type :=
  | mkAttr (key : string) (value : Value)
with Dyn : Type :=
  | mkDyn (typeName : string)
          (repr : string)
          (logValue : option Value)                       (* slog.LogValuer *)
          (marshaler : bool)       (* json.Marshaler or encoding.TextMarshaler *)
          (errorText : option string)                              (* error *)
          (stringText : option string)                      (* fmt.Stringer *)
          (stackTrace : option (string * bool))       (* StackTrace() method *)
          (reportLocation : option (option ReportLocation)).
                                                  (* ReportLocation() method *)

Definition Key (a : Attr) : string := let 'mkAttr k _ := a in k.
Definition Val (a : Attr) : Value := let 'mkAttr _ v := a in v.

Definition dynType (o : Dyn) : string :=
  let 'mkDyn t _ _ _ _ _ _ _ := o in t.
Definition dynRepr (o : Dyn) : string :=
  let 'mkDyn _ r _ _ _ _ _ _ := o in r.
Definition mLogValue (o : Dyn) : option Value :=
  let 'mkDyn _ _ lv _ _ _ _ _ := o in lv.
Definition mMarshal (o : Dyn) : bool :=
  let 'mkDyn _ _ _ m _ _ _ _ := o in m.
Definition mError (o : Dyn) : option string :=
  let 'mkDyn _ _ _ _ e _ _ _ := o in e.
Definition mString (o : Dyn) : option string :=
  let 'mkDyn _ _ _ _ _ s _ _ := o in s.
Definition mStackTrace (o : Dyn) : option (string * bool) :=
  let 'mkDyn _ _ _ _ _ _ st _ := o in st.
Definition mReportLocation (o : Dyn) : option (option ReportLocation) :=
  let 'mkDyn _ _ _ _ _ _ _ rl := o in rl.

(** A Go [any] as returned by [Value.Any()]. *)
Inductive GoAny : Type :=
  | GString (s : string)
  | GInt64 (n : Z)
  | GBool (b : bool)
  | GAttrs (attrs : list Attr)                               (* []slog.Attr *)
  | GLevel (l : Level)
  | GSource (s : option Source)
  | GDyn (o : Dyn).

(** [Value.Any()]. *)
Definition Any (v : Value) : GoAny :=
  match v with
  | StringValue s => GString s
  | Int64Value n => GInt64 n
  | BoolValue b => GBool b
  | GroupValue attrs => GAttrs attrs
  | LevelValue l => GLevel l
  | SourceValue s => GSource s
  | AnyValue o => GDyn o
  end.

(** What [Handle] stores in a [map[string]any].  [OMap] is a map that is
    complete when it is stored ([extractValue] builds those); [ORef] is a
    map of the heap, stored by reference because [Handle] keeps writing to
    it.  [OTime t] is the string [t.Format(time.RFC3339Nano)], whose
    characters are the time package's business. *)
Inductive OutVal : Type :=
  | ORaw (g : GoAny)
  | OTime (t : Z)
  | OSource (s : Source)
  | OLocation (l : ReportLocation)
  | OMap (m : gmap string OutVal)
  | ORef (r : nat).

Definition OString (s : string) : OutVal := ORaw (GString s).

(** [slog.Record].  [Time] counts nanoseconds from Go's zero time, so
    [IsZero] is a comparison with 0; [RSource] is the result of
    [r.Source()], [None] for nil. *)
Record slogRecord := mkRecord {
  Time : Z;
  Message : string;
  RLevel : Level;
  RSource : option Source;
  Attrs : list Attr
}.

Definition IsZero (t : Z) : bool := t =? 0.
Definition NumAttrs (r : slogRecord) : nat := length (Attrs r).

(** [slog.HandlerOptions]: [Level] and [ReplaceAttr] may be nil. *)
Record HandlerOptions := mkOptions {
  AddSource : bool;
  OptLevel : option Level;
  ReplaceAttrHook : option (list string -> Attr -> Attr)
}.

(* ===================================================================== *)
(** ** fmt and slog renderings used by the package                        *)
(* ===================================================================== *)

(** [Level.String()]. *)
Definition levelStr (base : string) (val : Z) : string :=
  if val =? 0 then base
  else if 0 <? val then base +:+ "+" +:+ pretty val
  else base +:+ pretty val.

Definition LevelString (l : Level) : string :=
  if l <? 0 then levelStr "DEBUG" (l - (-4))
  else if l <? 4 then levelStr "INFO" (l - 0)
  else if l <? 8 then levelStr "WARN" (l - 4)
  else levelStr "ERROR" (l - 8).

(** [%v] of a user-defined value: [fmt] asks [Error()] first, then
    [String()], then prints the data. *)
Definition dynString (o : Dyn) : string :=
  match mError o with
  | Some e => e
  | None => match mString o with
            | Some s => s
            | None => dynRepr o
            end
  end.

Definition sourceString (s : option Source) : string :=
  match s with
  | None => "<nil>"
  | Some src =>
      "&{" +:+ Function src +:+ " " +:+ File src +:+ " " +:+ pretty (Line src) +:+ "}"
  end.

Definition joinSpace (l : list string) : string :=
  match l with
  | [] => ""
  | s :: rest => fold_left (fun acc x => acc +:+ " " +:+ x) rest s
  end.

(** [Value.String()]; an attribute prints as [key=value] and a slice of
    attributes between brackets. *)
Fixpoint ValueString (v : Value) : string :=
  match v with
  | StringValue s => s
  | Int64Value n => pretty n
  | BoolValue b => if b then "true" else "false"
  | GroupValue attrs =>
      "[" +:+ joinSpace
                ((fix each (l : list Attr) : list string :=
                    match l with
                    | [] => []
                    | mkAttr k w :: l' => (k +:+ "=" +:+ ValueString w) :: each l'
                    end) attrs) +:+ "]"
  | LevelValue l => LevelString l
  | SourceValue s => sourceString s
  | AnyValue o => dynString o
  end.

(** [fmt.Sprintf("%T", v)]. *)
Definition fmtT (g : GoAny) : string :=
  match g with
  | GString _ => "string"
  | GInt64 _ => "int64"
  | GBool _ => "bool"
  | GAttrs _ => "[]slog.Attr"
  | GLevel _ => "slog.Level"
  | GSource _ => "*slog.Source"
  | GDyn o => dynType o
  end.

(** [fmt.Sprintf("%v", v)]. *)
Definition fmtV (g : GoAny) : string :=
  match g with
  | GString s => s
  | GInt64 n => pretty n
  | GBool b => if b then "true" else "false"
  | GAttrs attrs => ValueString (GroupValue attrs)
  | GLevel l => LevelString l
  | GSource s => sourceString s
  | GDyn o => dynString o
  end.

(* ===================================================================== *)
(** ** sloggcp.go: keys, levels, severities                               *)
(* ===================================================================== *)

Definition SeverityKey : string := "severity".
Definition MessageKey : string := "message".
Definition SourceLocationKey : string := "logging.googleapis.com/sourceLocation".
Definition TimeKey : string := "time".

Definition slogLevelDebug : Level := -4.
Definition slogLevelInfo : Level := 0.
Definition slogLevelWarn : Level := 4.
Definition slogLevelError : Level := 8.

Definition LevelDebug : Level := slogLevelDebug.
Definition LevelInfo : Level := slogLevelInfo.
Definition LevelNotice : Level := slogLevelInfo + 2.
Definition LevelWarning : Level := slogLevelWarn.
Definition LevelError : Level := slogLevelError.
Definition LevelCritical : Level := LevelError + 2.
Definition LevelAlert : Level := LevelError + 4.
Definition LevelEmergency : Level := LevelError + 6.

Definition DefaultSeverity : string := "DEFAULT".
Definition DebugSeverity : string := "DEBUG".
Definition InfoSeverity : string := "INFO".
Definition NoticeSeverity : string := "NOTICE".
Definition WarningSeverity : string := "WARNING".
Definition ErrorSeverity : string := "ERROR".
Definition CriticalSeverity : string := "CRITICAL".
Definition AlertSeverity : string := "ALERT".
Definition EmergencySeverity : string := "EMERGENCY".

Definition severityFromLevel (level : Level) : string :=
  if LevelEmergency <=? level then EmergencySeverity
  else if LevelAlert <=? level then AlertSeverity
  else if LevelCritical <=? level then CriticalSeverity
  else if LevelError <=? level then ErrorSeverity
  else if LevelWarning <=? level then WarningSeverity
  else if LevelNotice <=? level then NoticeSeverity
  else if LevelInfo <=? level then InfoSeverity
  else if LevelDebug <=? level then DebugSeverity
  else DefaultSeverity.

(** The nine labels of GCP's [LogSeverity] and their numeric rank there. *)
Definition severityLabels : list string :=
  [DefaultSeverity; DebugSeverity; InfoSeverity; NoticeSeverity;
   WarningSeverity; ErrorSeverity; CriticalSeverity; AlertSeverity;
   EmergencySeverity].

Definition severityRank (label : string) : Z :=
  if decide (label = DebugSeverity) then 100
  else if decide (label = InfoSeverity) then 200
  else if decide (label = NoticeSeverity) then 300
  else if decide (label = WarningSeverity) then 400
  else if decide (label = ErrorSeverity) then 500
  else if decide (label = CriticalSeverity) then 600
  else if decide (label = AlertSeverity) then 700
  else if decide (label = EmergencySeverity) then 800
  else 0.

(* ===================================================================== *)
(** ** Interface assertions                                               *)
(* ===================================================================== *)

(** [value.(error)]: of the modelled values only user-defined ones can
    have an [Error()] method. *)
Definition asError (value : GoAny) : option string :=
  match value with
  | GDyn o => mError o
  | _ => None
  end.

(** [value.(slog.LogValuer)]. *)
Definition asLogValuer (value : GoAny) : option Value :=
  match value with
  | GDyn o => mLogValue o
  | _ => None
  end.

(** [value.(StackTraceError)]: the interface embeds [error], so the
    assertion needs both methods; the result is what [StackTrace()]
    returns. *)
Definition asStackTraceError (value : GoAny) : option (string * bool) :=
  match asError value, value with
  | Some _, GDyn o => mStackTrace o
  | _, _ => None
  end.

(** [value.(ReportLocationError)], likewise; the result is what
    [ReportLocation()] returns, [None] for nil. *)
Definition asReportLocationError (value : GoAny) : option (option ReportLocation) :=
  match asError value, value with
  | Some _, GDyn o => mReportLocation o
  | _, _ => None
  end.

(* ===================================================================== *)
(** ** sloggcp.go: extractValue                                           *)
(* ===================================================================== *)

Fixpoint extractValue (v : Value) : OutVal :=
  match v with
  | GroupValue attrs =>
      OMap ((fix each (l : list Attr) (m : gmap string OutVal) : gmap string OutVal :=
               match l with
               | [] => m
               | mkAttr k w :: l' => each l' (<[k := extractValue w]> m)
               end) attrs ∅)
  | AnyValue (mkDyn _ _ lv marsh err str _ _ as o) =>
      match lv with
      | Some w => extractValue w
      | None =>
          if marsh then ORaw (GDyn o)
          else match err with
               | Some e => OString e
               | None => match str with
                         | Some s => OString s
                         | None => ORaw (GDyn o)
                         end
               end
      end
  | StringValue _ | Int64Value _ | BoolValue _ | LevelValue _ | SourceValue _ =>
      ORaw (Any v)
  end.

(* ===================================================================== *)
(** ** error_reporting.go                                                 *)
(* ===================================================================== *)

Definition ErrorKey : string := "error".
Definition ErrorReportTypeKey : string := "@type".
Definition ErrorReportTypeValue : string :=
  "type.googleapis.com/google.devtools.clouderrorreporting.v1beta1.ReportedErrorEvent".
Definition ReportLocationKey : string := "reportLocation".
Definition FilePathKey : string := "filePath".
Definition LineNumberKey : string := "lineNumber".
Definition FunctionNameKey : string := "functionName".

(** One frame of the goroutine's call stack as [runtime.Caller] and
    [runtime.FuncForPC] report it; [frameFunc] is [None] when
    [FuncForPC] has no function for the frame. *)
Record Frame := mkFrame {
  frameFile : string;
  frameLine : Z;
  frameFunc : option string
}.

(** [NewReportLocation(skip)], given the call stack at the call of
    [runtime.Caller] with the frame of [NewReportLocation] itself first. *)
Definition NewReportLocation (stack : list Frame) (skip : nat) : option ReportLocation :=
  match stack !! (skip + 1)%nat with
  | None => None
  | Some fr =>
      match frameFunc fr with
      | None => None
      | Some fn =>
          Some {| FilePath := frameFile fr; LineNumber := frameLine fr; FunctionName := fn |}
      end
  end.

(** The two frames on top of the stack when [assertErrorValue] captures a
    location; file names are relative to the package directory. *)
Definition frameNewReportLocation : Frame :=
  {| frameFile := "error_reporting.go"; frameLine := 83;
     frameFunc := Some "github.com/zitadel/sloggcp.NewReportLocation" |}.

Definition frameAssertErrorValue : Frame :=
  {| frameFile := "error_reporting.go"; frameLine := 66;
     frameFunc := Some "github.com/zitadel/sloggcp.assertErrorValue" |}.

(** [ReportLocation.LogValue()]. *)
Definition ReportLocation_LogValue (r : ReportLocation) : Value :=
  GroupValue [mkAttr FilePathKey (StringValue (FilePath r));
              mkAttr LineNumberKey (Int64Value (LineNumber r));
              mkAttr FunctionNameKey (StringValue (FunctionName r))].

Definition assertErrorValue (value : GoAny) : string * option ReportLocation :=
  let errMsg :=
    match asStackTraceError value with
    | Some (trace, traceOk) => if traceOk then trace else ""
    | None => ""
    end in
  let reportLocation :=
    match asReportLocationError value with
    | Some loc => loc
    | None => None
    end in
  if decide (errMsg ≠ "") then (errMsg, reportLocation)
  else
    match asError value with
    | Some e => (e, reportLocation)
    | None =>
        match value with
        | GString v => (v, reportLocation)
        | _ =>
            ("sloggcp: unsupported type " +:+ fmtT value +:+ " with value " +:+ fmtV value,
             NewReportLocation [frameNewReportLocation; frameAssertErrorValue] 0)
        end
    end.

Definition checkAndSetErrorReport (a : Attr) (out : gmap string OutVal)
  : bool * gmap string OutVal :=
  if decide (Key a ≠ ErrorKey) then (false, out)
  else
    let value := Any (Val a) in
    let '(errMsg, reportLocation) := assertErrorValue value in
    let out := <[ErrorReportTypeKey := OString ErrorReportTypeValue]> out in
    let out := <[MessageKey := OString errMsg]> out in
    let out := <[ErrorKey := ORaw value]> out in
    let out :=
      match reportLocation with
      | Some l => <[ReportLocationKey := OLocation l]> out
      | None => out
      end in
    let out :=
      match asLogValuer value with
      | Some lv => <[ErrorKey := extractValue lv]> out
      | None =>
          match asError value with
          | Some e => <[ErrorKey := OString e]> out
          | None => out
          end
      end in
    (true, out).

(* ===================================================================== *)
(** ** sloggcp.go: the handler                                            *)
(* ===================================================================== *)

(** [groupOrAttrs] holds either a group name or a list of attributes. *)
Record groupOrAttrs := mkGoa {
  group : string;
  attrs : list Attr
}.

Record handler := mkHandler {
  opts : HandlerOptions;
  goas : list groupOrAttrs
}.

Definition DefaultOpts : HandlerOptions :=
  {| AddSource := false; OptLevel := Some slogLevelInfo; ReplaceAttrHook := None |}.

(** [NewErrorReportingHandler]; the writer, encoder and mutex play no part
    in what document is built. *)
Definition NewErrorReportingHandler (o : option HandlerOptions) : handler :=
  let opts := match o with Some x => x | None => DefaultOpts end in
  let opts :=
    match OptLevel opts with
    | None => {| AddSource := AddSource opts;
                 OptLevel := OptLevel DefaultOpts;
                 ReplaceAttrHook := ReplaceAttrHook opts |}
    | Some _ => opts
    end in
  {| opts := opts; goas := [] |}.

(** [Enabled]; the constructor leaves no handler without a level, where
    the Go code would dereference nil. *)
Definition Enabled (h : handler) (level : Level) : bool :=
  match OptLevel (opts h) with
  | Some min => min <=? level
  | None => false
  end.

Definition withGroupOrAttrs (h : handler) (goa : groupOrAttrs) : handler :=
  {| opts := opts h; goas := goas h ++ [goa] |}.

Definition WithAttrs (h : handler) (attrs : list Attr) : handler :=
  withGroupOrAttrs h {| group := ""; attrs := attrs |}.

Definition WithGroup (h : handler) (name : string) : handler :=
  withGroupOrAttrs h {| group := name; attrs := [] |}.

Definition replaceAttr (h : handler) (groups : list string) (a : Attr) : Attr :=
  match ReplaceAttrHook (opts h) with
  | Some f => f groups a
  | None => a
  end.

(** Lines 118-133 of [Handle]: the built-in fields. *)
Definition baseFields (h : handler) (r : slogRecord) : gmap string OutVal :=
  let out : gmap string OutVal := ∅ in
  let out := if negb (IsZero (Time r)) then <[TimeKey := OTime (Time r)]> out else out in
  let out :=
    if AddSource (opts h) then
      match RSource r with
      | Some source => <[SourceLocationKey := OSource source]> out
      | None => out
      end
    else out in
  let out := if decide (Message r ≠ "") then <[MessageKey := OString (Message r)]> out else out in
  <[SeverityKey := OString (severityFromLevel (RLevel r))]> out.

(** The loop that removes the groups at the end of the list, run on the
    reversed list: drop entries while the first one names a group. *)
Fixpoint dropLeadingGroups (rgoas : list groupOrAttrs) : list groupOrAttrs :=
  match rgoas with
  | [] => []
  | goa :: rest => if decide (group goa ≠ "") then dropLeadingGroups rest else rgoas
  end.

Definition trimTrailingGroups (goas : list groupOrAttrs) : list groupOrAttrs :=
  rev (dropLeadingGroups (rev goas)).

(** Lines 132-139: the stack [Handle] goes on to use. *)
Definition effectiveGoas (h : handler) (r : slogRecord) : list groupOrAttrs :=
  if decide (NumAttrs r = 0%nat) then trimTrailingGroups (goas h) else goas h.

(** Lines 145-149: the inner loop over one batch. *)
Fixpoint scanAttrs (l : list Attr) (out : gmap string OutVal) : gmap string OutVal :=
  match l with
  | [] => out
  | a :: rest =>
      let '(found, out') := checkAndSetErrorReport a out in
      if found then out' else scanAttrs rest out'
  end.

(** Lines 141-150: the outer loop, left at the first group. *)
Fixpoint scanGoas (l : list groupOrAttrs) (out : gmap string OutVal) : gmap string OutVal :=
  match l with
  | [] => out
  | goa :: rest =>
      if decide (group goa ≠ "") then out
      else scanGoas rest (scanAttrs (attrs goa) out)
  end.

(** The maps [Handle] allocates, in allocation order: [out] is map 0 and
    every [newGroup] is appended.  [cur] is the variable [group] of the Go
    code, [groups] the list of open group names. *)
Record HState := mkHState {
  heap : list (gmap string OutVal);
  cur : nat;
  groups : list string
}.

(** [m[k] = v] on the map at [ref]. *)
Definition store (ref : nat) (k : string) (v : OutVal)
    (hp : list (gmap string OutVal)) : list (gmap string OutVal) :=
  alter (<[k := v]>) ref hp.

(** Lines 156-169: one stack entry of the replay. *)
Definition replayGoa (h : handler) (st : HState) (goa : groupOrAttrs) : HState :=
  if decide (group goa ≠ "") then
    let newGroup := length (heap st) in
    {| heap := store (cur st) (group goa) (ORef newGroup) (heap st ++ [∅]);
       cur := newGroup;
       groups := groups st ++ [group goa] |}
  else
    {| heap := fold_left
                 (fun hp a =>
                    let a := replaceAttr h (groups st) a in
                    store (cur st) (Key a) (ORaw (Any (Val a))) hp)
                 (attrs goa) (heap st);
       cur := cur st;
       groups := groups st |}.

(** Lines 172-179: one attribute of the record. *)
Definition handleAttr (h : handler) (st : HState) (a : Attr) : HState :=
  let a := replaceAttr h (groups st) a in
  let hp :=
    if decide (length (groups st) = 0%nat)
    then alter (fun out => snd (checkAndSetErrorReport a out)) 0%nat (heap st)
    else heap st in
  {| heap := store (cur st) (Key a) (extractValue (Val a)) hp;
     cur := cur st;
     groups := groups st |}.

(** The state when [Handle] reaches the encoder. *)
Definition handleState (h : handler) (r : slogRecord) : HState :=
  let out := baseFields h r in
  let goas := effectiveGoas h r in
  let out := scanGoas goas out in
  let st := fold_left (replayGoa h) goas {| heap := [out]; cur := 0%nat; groups := [] |} in
  fold_left (handleAttr h) (Attrs r) st.

(** A stored value as the encoder sees it, given how to read a map of
    the heap: a reference is followed, anything else is itself. *)
Definition deref (read : nat -> gmap string OutVal) (v : OutVal) : OutVal :=
  match v with
  | ORef r => OMap (read r)
  | _ => v
  end.

(** What the encoder sees of the map at [ref].  A map nested [n] deep
    needs fuel [n + 1]. *)
Fixpoint resolve (fuel : nat) (hp : list (gmap string OutVal)) (ref : nat)
  : gmap string OutVal :=
  match fuel with
  | O => ∅
  | S n => deref (resolve n hp) <$> default ∅ (hp !! ref)
  end.

(** [Handle]: the document handed to [h.encoder.Encode].  Every map of the
    heap but [out] is nested in an earlier one, so the number of maps is
    fuel enough. *)
Definition Handle (h : handler) (r : slogRecord) : gmap string OutVal :=
  let st := handleState h r in
  resolve (length (heap st)) (heap st) 0.

(* ===================================================================== *)
(** ** replace.go                                                         *)
(* ===================================================================== *)

Module Replace.

Definition slogTimeKey : string := "time".
Definition slogLevelKey : string := "level".
Definition slogSourceKey : string := "source".
Definition slogMessageKey : string := "msg".

Definition SourceLocationKey : string := "logging.googleapis.com/sourceLocation".
Definition SeverityKey : string := "severity".
Definition MessageKey : string := "message".

Definition DebugSeverity : string := "DEBUG".
Definition InfoSeverity : string := "INFO".
Definition WarningSeverity : string := "WARNING".
Definition ErrorSeverity : string := "ERROR".
Definition DefaultSeverity : string := "DEFAULT".

(** [slog.String(key, value)]. *)
Definition slogString (key value : string) : Attr := mkAttr key (StringValue value).

Definition ReplaceAttr (groups : list string) (a : Attr) : Attr :=
  if decide (Key a = slogTimeKey ∧ length groups = 0%nat) then a
  else if decide (Key a = slogLevelKey ∧ length groups = 0%nat) then
    match Any (Val a) with
    | GLevel logLevel =>
        if logLevel =? slogLevelDebug then slogString SeverityKey DebugSeverity
        else if logLevel =? slogLevelInfo then slogString SeverityKey InfoSeverity
        else if logLevel =? slogLevelWarn then slogString SeverityKey WarningSeverity
        else if logLevel =? slogLevelError then slogString SeverityKey ErrorSeverity
        else slogString SeverityKey DefaultSeverity
    | _ => slogString SeverityKey DefaultSeverity
    end
  else if decide (Key a = slogSourceKey ∧ length groups = 0%nat) then
    match Any (Val a) with
    | GSource (Some source) => mkAttr SourceLocationKey (SourceValue (Some source))
    | _ => a
    end
  else if decide (Key a = slogMessageKey ∧ length groups = 0%nat) then
    slogString MessageKey (ValueString (Val a))
  else a.

End Replace.

(* ===================================================================== *)
(** ** Values used by the package's tests                                 *)
(* ===================================================================== *)

Module TestValues.

Definition mockReportLocation : ReportLocation :=
  {| FilePath := "file.go"; LineNumber := 42; FunctionName := "package.function" |}.

Definition mockReportLocationError : Dyn :=
  mkDyn "sloggcp.mockReportLocationError" "{}" None false
        (Some "mockReportLocationError") None None (Some (Some mockReportLocation)).

Definition mockStackTraceError (returnStack : bool) : Dyn :=
  mkDyn "sloggcp.mockStackTraceError" (if returnStack then "{true}" else "{false}")
        None false (Some "mockStackTraceError") None
        (Some (if returnStack then ("stack", true) else ("", false))) None.

Definition mockStackAndReport (returnStack : bool) : Dyn :=
  mkDyn "sloggcp.mockStackAndReport" (if returnStack then "{true}" else "{false}")
        None false (Some "mockStackAndReport") None
        (Some (if returnStack then ("stack", true) else ("", false)))
        (Some (Some mockReportLocation)).

Definition mockStackAndReportValuer (returnStack : bool) : Dyn :=
  mkDyn "sloggcp.mockStackAndReportValuer"
        (if returnStack then "{{true}}" else "{{false}}")
        (Some (GroupValue [mkAttr "key1" (StringValue "value1");
                           mkAttr "key2" (Int64Value 42)]))
        false (Some "mockStackAndReport") None
        (Some (if returnStack then ("stack", true) else ("", false)))
        (Some (Some mockReportLocation)).

(** [errors.New(text)]. *)
Definition errorsNew (text : string) : Dyn :=
  mkDyn "*errors.errorString" ("&{" +:+ text +:+ "}") None false (Some text) None None None.

Definition stringer : Dyn :=
  mkDyn "sloggcp.stringer" "{}" None false None (Some "stringer") None None.

(** The hook of the tests and of the package example: [err] becomes the
    error key outside of groups. *)
Definition errToErrorKey (groups : list string) (a : Attr) : Attr :=
  if decide (length groups ≠ 0%nat) then a
  else if decide (Key a = "err") then mkAttr ErrorKey (Val a)
  else a.

Definition logger (hook : option (list string -> Attr -> Attr)) : handler :=
  NewErrorReportingHandler
    (Some {| AddSource := false; OptLevel := None; ReplaceAttrHook := hook |}).

Definition record (level : Level) (msg : string) (attrs : list Attr) : slogRecord :=
  {| Time := 1; Message := msg; RLevel := level; RSource := None; Attrs := attrs |}.

End TestValues.

(* ===================================================================== *)
(** ** Vocabulary of the statements                                       *)
(* ===================================================================== *)

(** The location [ReportLocation()] gives, nil when the method is missing. *)
Definition locationOf (o : Dyn) : option ReportLocation :=
  match mReportLocation o with
  | Some loc => loc
  | None => None
  end.

(** The location [assertErrorValue] captures for a value it does not
    support: its own frame. *)
Definition capturedLocation : ReportLocation :=
  {| FilePath := "error_reporting.go"; LineNumber := 66;
     FunctionName := "github.com/zitadel/sloggcp.assertErrorValue" |}.

Definition unsupportedMessage (value : GoAny) : string :=
  "sloggcp: unsupported type " +:+ fmtT value +:+ " with value " +:+ fmtV value.

(** What [checkAndSetErrorReport] leaves under the error key. *)
Definition errorField (value : GoAny) : OutVal :=
  match asLogValuer value with
  | Some lv => extractValue lv
  | None =>
      match asError value with
      | Some e => OString e
      | None => ORaw value
      end
  end.

(** The keys an error report writes, and the keys of the built-in fields. *)
Definition errorReportKeys : list string :=
  [ErrorReportTypeKey; MessageKey; ErrorKey; ReportLocationKey].

Definition builtinKeys : list string :=
  [TimeKey; SourceLocationKey; MessageKey; SeverityKey].

(** A stack none of whose entries opens a group. *)
Definition opensNoGroup (l : list groupOrAttrs) : Prop :=
  Forall (fun goa => group goa = "") l.

(** A map none of whose values is a reference into the heap. *)
Definition noRef (m : gmap string OutVal) : Prop :=
  forall k r, m !! k ≠ Some (ORef r).

(** While no group is open [out] is the only map there is; these are the
    replay of one batch and the handling of one record attribute as
    functions on [out], and the [out] they lead to. *)
Definition batchStep (h : handler) (out : gmap string OutVal) (goa : groupOrAttrs)
  : gmap string OutVal :=
  fold_left
    (fun m a => let a := replaceAttr h [] a in <[Key a := ORaw (Any (Val a))]> m)
    (attrs goa) out.

Definition attrStep (h : handler) (out : gmap string OutVal) (a : Attr)
  : gmap string OutVal :=
  let a := replaceAttr h [] a in
  <[Key a := extractValue (Val a)]> (snd (checkAndSetErrorReport a out)).

Definition flatOut (h : handler) (r : slogRecord) : gmap string OutVal :=
  let goas := effectiveGoas h r in
  fold_left (attrStep h) (Attrs r)
    (fold_left (batchStep h) goas (scanGoas goas (baseFields h r))).

(** A heap in which a map refers only to maps allocated after it, and a
    handler state over such a heap. *)
Definition heapOrdered (hp : list (gmap string OutVal)) : Prop :=
  forall i m k ref, hp !! i = Some m -> m !! k = Some (ORef ref) -> (i < ref)%nat.

Definition stateOk (st : HState) : Prop :=
  heapOrdered (heap st) /\ (cur st < length (heap st))%nat.

(* ===================================================================== *)
(** ** The document as a tree                                             *)
(* ===================================================================== *)

(** What the replay of one batch and the handling of one record attribute
    write into the map [m] that is current while the groups [gs] are open. *)
Definition batchInto (h : handler) (gs : list string) (m : gmap string OutVal)
    (goa : groupOrAttrs) : gmap string OutVal :=
  fold_left
    (fun m a => let a := replaceAttr h gs a in <[Key a := ORaw (Any (Val a))]> m)
    (attrs goa) m.

Definition attrInto (h : handler) (gs : list string) (m : gmap string OutVal)
    (a : Attr) : gmap string OutVal :=
  let a := replaceAttr h gs a in
  let m := if decide (length gs = 0%nat) then snd (checkAndSetErrorReport a m) else m in
  <[Key a := extractValue (Val a)]> m.

(** The map that the stack entries [l] and then the record attributes
    [rattrs] make of the current map [m]: a group opener puts everything
    after it into one map under its name. *)
Fixpoint nest (h : handler) (rattrs : list Attr) (l : list groupOrAttrs)
    (gs : list string) (m : gmap string OutVal) : gmap string OutVal :=
  match l with
  | [] => fold_left (attrInto h gs) rattrs m
  | goa :: rest =>
      if decide (group goa ≠ "")
      then <[group goa := OMap (nest h rattrs rest (gs ++ [group goa]) ∅)]> m
      else nest h rattrs rest gs (batchInto h gs m goa)
  end.

(** The state of [Handle] after the stack entries [l] and the record
    attributes [rattrs], from the state [st]. *)
Definition runFrom (h : handler) (rattrs : list Attr) (l : list groupOrAttrs)
    (st : HState) : HState :=
  fold_left (handleAttr h) rattrs (fold_left (replayGoa h) l st).

(** The value of the last attribute of [l] that is keyed [k]. *)
Definition lastValue (k : string) (l : list Attr) : option Value :=
  fold_left (fun acc a => if decide (Key a = k) then Some (Val a) else acc) l None.

(** The minimum level a handler made from the options [o] works with. *)
Definition configuredLevel (o : option HandlerOptions) : Level :=
  match o with
  | Some x => default slogLevelInfo (OptLevel x)
  | None => slogLevelInfo
  end.

(** A handler after a sequence of [WithAttrs] and [WithGroup] calls, each
    given by the entry it appends. *)
Definition derive (h : handler) (steps : list groupOrAttrs) : handler :=
  fold_left withGroupOrAttrs steps h.

(** The entry [WithGroup(name)] appends, and the chain of maps that the
    groups [names] make around the map [inner]. *)
Definition opener (name : string) : groupOrAttrs := {| group := name; attrs := [] |}.

Fixpoint wrap (names : list string) (inner : gmap string OutVal) : gmap string OutVal :=
  match names with
  | [] => inner
  | g :: rest => <[g := OMap (wrap rest inner)]> ∅
  end.

(* ===================================================================== *)
(** ** severityFromLevel                                                  *)
(* ===================================================================== *)

Ltac level_cases l :=
  unfold severityFromLevel, LevelEmergency, LevelAlert, LevelCritical, LevelError,
    LevelWarning, LevelNotice, LevelInfo, LevelDebug, slogLevelError, slogLevelWarn,
    slogLevelInfo, slogLevelDebug;
  repeat match goal with
         | |- context [?a <=? l] => destruct (Z.leb_spec a l)
         end.

Lemma severityLabels_NoDup : NoDup severityLabels.
Proof. apply (bool_decide_unpack _). vm_compute. exact I. Qed.

Lemma severityFromLevel_label (l : Level) : severityFromLevel l ∈ severityLabels.
Proof.
  level_cases l; unfold severityLabels; rewrite !elem_of_cons; tauto.
Qed.

Lemma severityFromLevel_rank_mono (l1 l2 : Level) :
  l1 <= l2 -> severityRank (severityFromLevel l1) <= severityRank (severityFromLevel l2).
Proof.
  intros Hle. level_cases l1; level_cases l2; try lia; vm_compute; congruence.
Qed.

(** The test table of [Test_severityFromLevel]. *)
Example severityFromLevel_table :
  map severityFromLevel
      [LevelDebug; LevelInfo; LevelNotice; LevelWarning; LevelError;
       LevelCritical; LevelAlert; LevelEmergency; -10]
  = [DebugSeverity; InfoSeverity; NoticeSeverity; WarningSeverity; ErrorSeverity;
     CriticalSeverity; AlertSeverity; EmergencySeverity; DefaultSeverity].
Proof. reflexivity. Qed.

(** C9: for levels [l1 <= l2] the label of [l1] ranks no higher than the
    label of [l2], and the label of every level is one of the nine defined
    labels. *)
Theorem severityFromLevel_monotone_nine_labels :
  (forall l1 l2 : Level,
      l1 <= l2 ->
      severityRank (severityFromLevel l1) <= severityRank (severityFromLevel l2))
  /\ (forall l : Level, severityFromLevel l ∈ severityLabels)
  /\ length severityLabels = 9%nat.
Proof.
  split; [exact severityFromLevel_rank_mono |].
  split; [exact severityFromLevel_label | reflexivity].
Qed.

Lemma severityFromLevel_monotone_nine_labels_witness :
  LevelNotice <= LevelCritical
  /\ severityRank (severityFromLevel LevelNotice)
     <= severityRank (severityFromLevel LevelCritical).
Proof.
  split; [vm_compute; congruence |].
  apply (proj1 severityFromLevel_monotone_nine_labels LevelNotice LevelCritical).
  vm_compute; congruence.
Defined.

(* ===================================================================== *)
(** ** assertErrorValue                                                   *)
(* ===================================================================== *)

Lemma assertErrorValue_trace (o : Dyn) (e trace : string) :
  mError o = Some e ->
  mStackTrace o = Some (trace, true) ->
  trace ≠ "" ->
  assertErrorValue (GDyn o) = (trace, locationOf o).
Proof.
  intros He Hst Hne.
  unfold assertErrorValue, asStackTraceError, asReportLocationError, locationOf, asError.
  rewrite He, Hst.
  destruct (decide (trace ≠ "")) as [_ | Hc]; [reflexivity | contradiction].
Qed.

Lemma assertErrorValue_no_trace (o : Dyn) (e : string) :
  mError o = Some e ->
  (mStackTrace o = None
   \/ exists trace ok, mStackTrace o = Some (trace, ok) /\ (trace = "" \/ ok = false)) ->
  assertErrorValue (GDyn o) = (e, locationOf o).
Proof.
  intros He Hst.
  unfold assertErrorValue, asStackTraceError, asReportLocationError, locationOf, asError.
  rewrite He.
  destruct Hst as [Hst | (trace & ok & Hst & Hempty)]; rewrite Hst.
  - destruct (decide ("" ≠ "")) as [Hc | _]; [contradiction | reflexivity].
  - destruct ok.
    + destruct Hempty as [-> | Hf]; [| discriminate].
      destruct (decide ("" ≠ "")) as [Hc | _]; [contradiction | reflexivity].
    + destruct (decide ("" ≠ "")) as [Hc | _]; [contradiction | reflexivity].
Qed.

(** The table of [Test_assertErrorValue] for the values the model has,
    with the messages the function of this file produces. *)
Example assertErrorValue_table :
  assertErrorValue (GString "oops") = ("oops", None)
  /\ assertErrorValue (GDyn (TestValues.errorsNew "oops")) = ("oops", None)
  /\ assertErrorValue (GDyn TestValues.mockReportLocationError)
     = ("mockReportLocationError", Some TestValues.mockReportLocation)
  /\ assertErrorValue (GDyn (TestValues.mockStackTraceError true)) = ("stack", None)
  /\ assertErrorValue (GDyn (TestValues.mockStackTraceError false))
     = ("mockStackTraceError", None)
  /\ assertErrorValue (GDyn (TestValues.mockStackAndReport true))
     = ("stack", Some TestValues.mockReportLocation)
  /\ assertErrorValue (GDyn (TestValues.mockStackAndReport false))
     = ("mockStackAndReport", Some TestValues.mockReportLocation)
  /\ fst (assertErrorValue (GInt64 42)) = "sloggcp: unsupported type int64 with value 42".
Proof. repeat split. Qed.

(** C4: for an error value, a stack trace that is present and non-empty is
    the message, whatever else the value is; with an empty or absent trace
    the message is the error text; either way the location is the one the
    report-location method returns, nil when the value has no such
    method. *)
Theorem assertErrorValue_trace_wins (o : Dyn) (e : string) :
  mError o = Some e ->
  (forall trace : string,
      mStackTrace o = Some (trace, true) -> trace ≠ "" ->
      assertErrorValue (GDyn o) = (trace, locationOf o))
  /\ ((mStackTrace o = None
       \/ exists trace ok, mStackTrace o = Some (trace, ok) /\ (trace = "" \/ ok = false)) ->
      assertErrorValue (GDyn o) = (e, locationOf o)).
Proof.
  intros He. split.
  - intros trace. apply assertErrorValue_trace with (e := e). exact He.
  - apply assertErrorValue_no_trace. exact He.
Qed.

Lemma assertErrorValue_trace_wins_witness :
  assertErrorValue (GDyn (TestValues.mockStackAndReport true))
  = ("stack", Some TestValues.mockReportLocation)
  /\ assertErrorValue (GDyn (TestValues.mockStackAndReport false))
     = ("mockStackAndReport", Some TestValues.mockReportLocation).
Proof.
  split.
  - apply (proj1 (assertErrorValue_trace_wins (TestValues.mockStackAndReport true)
                    "mockStackAndReport" eq_refl) "stack").
    + reflexivity.
    + discriminate.
  - apply (proj2 (assertErrorValue_trace_wins (TestValues.mockStackAndReport false)
                    "mockStackAndReport" eq_refl)).
    right. exists "", false. split; [reflexivity | left; reflexivity].
Defined.

Lemma assertErrorValue_unsupported (value : GoAny) :
  asError value = None ->
  (forall s, value ≠ GString s) ->
  assertErrorValue value = (unsupportedMessage value, Some capturedLocation).
Proof.
  intros He Hs.
  unfold assertErrorValue, asStackTraceError, asReportLocationError.
  rewrite He.
  destruct (decide ("" ≠ "")) as [Hc | _]; [contradiction |].
  destruct value; try reflexivity.
  exfalso. eapply Hs. reflexivity.
Qed.

(* ===================================================================== *)
(** ** extractValue and checkAndSetErrorReport                            *)
(* ===================================================================== *)

Lemma extractValue_not_ref : forall (v : Value) (r : nat), extractValue v ≠ ORef r.
Proof.
  fix IH 1. intros v r.
  destruct v as [s | n | b | l | lv | src | o]; try discriminate.
  destruct o as [t rp lv marsh err str st rl].
  destruct lv as [w |].
  - simpl. apply IH.
  - simpl. destruct marsh; [discriminate |].
    destruct err; [discriminate |]. destruct str; discriminate.
Qed.

Lemma deref_extractValue (read : nat -> gmap string OutVal) (v : Value) :
  deref read (extractValue v) = extractValue v.
Proof.
  pose proof (extractValue_not_ref v) as H.
  destruct (extractValue v); try reflexivity. exfalso. eapply H. reflexivity.
Qed.

Lemma errorField_not_ref (value : GoAny) (r : nat) : errorField value ≠ ORef r.
Proof.
  unfold errorField. destruct (asLogValuer value).
  - apply extractValue_not_ref.
  - destruct (asError value); discriminate.
Qed.

(** The capability priorities of [extractValue] on the test values. *)
Example extractValue_priorities :
  extractValue (AnyValue (TestValues.errorsNew "boom")) = OString "boom"
  /\ extractValue (AnyValue TestValues.stringer) = OString "stringer"
  /\ extractValue (AnyValue (TestValues.mockStackAndReportValuer true))
     = OMap (<["key2" := ORaw (GInt64 42)]> (<["key1" := OString "value1"]> ∅))
  /\ extractValue (StringValue "s") = OString "s".
Proof. repeat split. Qed.

Lemma checkAndSetErrorReport_other (a : Attr) (out : gmap string OutVal) :
  Key a ≠ ErrorKey -> checkAndSetErrorReport a out = (false, out).
Proof.
  intros Hk. unfold checkAndSetErrorReport.
  destruct (decide (Key a ≠ ErrorKey)); [reflexivity | contradiction].
Qed.

Lemma checkAndSetErrorReport_fires (a : Attr) (out : gmap string OutVal) :
  Key a = ErrorKey ->
  let value := Any (Val a) in
  let out' := snd (checkAndSetErrorReport a out) in
  fst (checkAndSetErrorReport a out) = true
  /\ out' !! ErrorReportTypeKey = Some (OString ErrorReportTypeValue)
  /\ out' !! MessageKey = Some (OString (fst (assertErrorValue value)))
  /\ out' !! ErrorKey = Some (errorField value)
  /\ out' !! ReportLocationKey
     = match snd (assertErrorValue value) with
       | Some l => Some (OLocation l)
       | None => out !! ReportLocationKey
       end
  /\ (forall k, k ∉ errorReportKeys -> out' !! k = out !! k).
Proof.
  intros Hk value out'. subst out'. unfold checkAndSetErrorReport.
  destruct (decide (Key a ≠ ErrorKey)) as [Hne | _]; [contradiction |].
  fold value. unfold errorField.
  destruct (assertErrorValue value) as [msg loc]. cbn [fst snd].
  unfold errorReportKeys, ErrorReportTypeKey, MessageKey, ErrorKey, ReportLocationKey.
  split; [reflexivity |].
  destruct loc as [l |], (asLogValuer value) as [lv |], (asError value) as [e |];
    repeat split; try (simplify_map_eq; reflexivity);
    intros k Hnot; rewrite !not_elem_of_cons in Hnot;
    destruct Hnot as (H1 & H2 & H3 & H4 & _);
    rewrite !lookup_insert_ne by congruence; reflexivity.
Qed.

Lemma checkAndSetErrorReport_ref (a : Attr) (out : gmap string OutVal)
    (k : string) (r : nat) :
  snd (checkAndSetErrorReport a out) !! k = Some (ORef r) -> out !! k = Some (ORef r).
Proof.
  intros Hkr. destruct (decide (Key a = ErrorKey)) as [Hk | Hk].
  - destruct (checkAndSetErrorReport_fires a out Hk) as (_ & Ht & Hm & He & Hl & Hrest).
    destruct (decide (k ∈ errorReportKeys)) as [Hin | Hnot].
    + unfold errorReportKeys in Hin. rewrite !elem_of_cons in Hin.
      destruct Hin as [-> | [-> | [-> | [-> | Hnil]]]].
      * rewrite Ht in Hkr. discriminate.
      * rewrite Hm in Hkr. discriminate.
      * rewrite He in Hkr. injection Hkr as Hkr.
        exfalso. exact (errorField_not_ref _ _ Hkr).
      * rewrite Hl in Hkr. destruct (snd (assertErrorValue (Any (Val a)))).
        -- discriminate.
        -- exact Hkr.
      * inversion Hnil.
    + rewrite (Hrest k Hnot) in Hkr. exact Hkr.
  - rewrite checkAndSetErrorReport_other in Hkr by exact Hk. exact Hkr.
Qed.

Lemma checkAndSetErrorReport_noRef (a : Attr) (out : gmap string OutVal) :
  noRef out -> noRef (snd (checkAndSetErrorReport a out)).
Proof.
  intros Hout k r Hkr. exact (Hout k r (checkAndSetErrorReport_ref a out k r Hkr)).
Qed.

Lemma noRef_insert (m : gmap string OutVal) (k : string) (v : OutVal) :
  (forall r, v ≠ ORef r) -> noRef m -> noRef (<[k := v]> m).
Proof.
  intros Hv Hm k' r. destruct (decide (k = k')) as [-> | Hne].
  - rewrite lookup_insert_eq. intros [= ->]. exact (Hv r eq_refl).
  - rewrite lookup_insert_ne by exact Hne. apply Hm.
Qed.

Lemma noRef_deref (read : nat -> gmap string OutVal) (m : gmap string OutVal) :
  noRef m -> deref read <$> m = m.
Proof.
  intros Hm. apply map_eq. intros k. rewrite lookup_fmap.
  destruct (m !! k) as [v |] eqn:Hk; [| reflexivity].
  destruct v; try reflexivity. exfalso. exact (Hm _ _ Hk).
Qed.

(** C8: an error-key attribute whose value is neither a string nor an
    error does not fail: [assertErrorValue] returns the diagnostic message
    that names the value's type and text together with a freshly captured,
    non-nil location (the frame of [assertErrorValue] itself), and
    [checkAndSetErrorReport] writes both into the document. *)
Theorem unsupported_error_value_is_reported (value : GoAny) :
  asError value = None ->
  (forall s, value ≠ GString s) ->
  assertErrorValue value = (unsupportedMessage value, Some capturedLocation)
  /\ NewReportLocation [frameNewReportLocation; frameAssertErrorValue] 0
     = Some capturedLocation
  /\ forall (a : Attr) (out : gmap string OutVal),
       Key a = ErrorKey -> Any (Val a) = value ->
       fst (checkAndSetErrorReport a out) = true
       /\ snd (checkAndSetErrorReport a out) !! MessageKey
          = Some (OString (unsupportedMessage value))
       /\ snd (checkAndSetErrorReport a out) !! ReportLocationKey
          = Some (OLocation capturedLocation).
Proof.
  intros He Hs.
  pose proof (assertErrorValue_unsupported value He Hs) as Hassert.
  split; [exact Hassert |]. split; [reflexivity |].
  intros a out Hk Hv.
  destruct (checkAndSetErrorReport_fires a out Hk) as (Hf & _ & Hm & _ & Hl & _).
  rewrite Hv, Hassert in Hm, Hl. cbn [fst snd] in Hm, Hl.
  split; [exact Hf |]. split; [exact Hm | exact Hl].
Qed.

Lemma unsupported_error_value_is_reported_witness :
  assertErrorValue (GInt64 42)
  = ("sloggcp: unsupported type int64 with value 42", Some capturedLocation).
Proof.
  apply (proj1 (unsupported_error_value_is_reported (GInt64 42) eq_refl
                  ltac:(discriminate))).
Defined.

(* ===================================================================== *)
(** ** Handle while no group is open                                      *)
(* ===================================================================== *)

Lemma baseFields_lookup (h : handler) (r : slogRecord) (k : string) :
  baseFields h r !! k
  = if decide (k = SeverityKey) then Some (OString (severityFromLevel (RLevel r)))
    else if decide (k = MessageKey) then
      if decide (Message r ≠ "") then Some (OString (Message r)) else None
    else if decide (k = SourceLocationKey) then
      if AddSource (opts h) then OSource <$> RSource r else None
    else if decide (k = TimeKey) then
      if IsZero (Time r) then None else Some (OTime (Time r))
    else None.
Proof.
  unfold baseFields, SeverityKey, MessageKey, SourceLocationKey, TimeKey.
  destruct (IsZero (Time r)), (AddSource (opts h)), (RSource r) as [src |],
    (decide (Message r ≠ "")); cbn [negb fmap option_fmap option_map];
    repeat case_decide; simplify_map_eq; reflexivity.
Qed.

Lemma baseFields_noRef (h : handler) (r : slogRecord) : noRef (baseFields h r).
Proof.
  intros k ref. rewrite baseFields_lookup.
  repeat case_decide; try discriminate;
    destruct (AddSource (opts h)), (RSource r), (IsZero (Time r)); discriminate.
Qed.

Lemma scanAttrs_noRef (l : list Attr) (out : gmap string OutVal) :
  noRef out -> noRef (scanAttrs l out).
Proof.
  revert out. induction l as [| a rest IH]; intros out Hout; [exact Hout |].
  simpl. pose proof (checkAndSetErrorReport_noRef a out Hout) as Hn.
  destruct (checkAndSetErrorReport a out) as [found out']. cbn [snd] in Hn.
  destruct found; [exact Hn | apply IH; exact Hn].
Qed.

Lemma scanGoas_noRef (l : list groupOrAttrs) (out : gmap string OutVal) :
  noRef out -> noRef (scanGoas l out).
Proof.
  revert out. induction l as [| goa rest IH]; intros out Hout; [exact Hout |].
  simpl. destruct (decide (group goa ≠ "")); [exact Hout |].
  apply IH. apply scanAttrs_noRef. exact Hout.
Qed.

Lemma batchStep_noRef (h : handler) (goa : groupOrAttrs) (out : gmap string OutVal) :
  noRef out -> noRef (batchStep h out goa).
Proof.
  unfold batchStep. generalize (attrs goa) as l. intros l. revert out.
  induction l as [| a rest IH]; intros out Hout; [exact Hout |].
  simpl. apply IH. apply noRef_insert; [discriminate | exact Hout].
Qed.

Lemma attrStep_noRef (h : handler) (a : Attr) (out : gmap string OutVal) :
  noRef out -> noRef (attrStep h out a).
Proof.
  intros Hout. unfold attrStep. apply noRef_insert.
  - apply extractValue_not_ref.
  - apply checkAndSetErrorReport_noRef. exact Hout.
Qed.

Lemma fold_noRef {A : Type} (f : gmap string OutVal -> A -> gmap string OutVal)
    (l : list A) (out : gmap string OutVal) :
  (forall m x, noRef m -> noRef (f m x)) -> noRef out -> noRef (fold_left f l out).
Proof.
  intros Hf. revert out. induction l as [| x rest IH]; intros out Hout; [exact Hout |].
  simpl. apply IH. apply Hf. exact Hout.
Qed.

Lemma flatOut_noRef (h : handler) (r : slogRecord) : noRef (flatOut h r).
Proof.
  unfold flatOut. apply fold_noRef; [intros; by apply attrStep_noRef |].
  apply fold_noRef; [intros; by apply batchStep_noRef |].
  apply scanGoas_noRef, baseFields_noRef.
Qed.

Lemma replayBatch_flat (h : handler) (l : list Attr) (out : gmap string OutVal) :
  fold_left
    (fun hp a => let a := replaceAttr h [] a in store 0 (Key a) (ORaw (Any (Val a))) hp)
    l [out]
  = [fold_left
       (fun m a => let a := replaceAttr h [] a in <[Key a := ORaw (Any (Val a))]> m)
       l out].
Proof.
  revert out. induction l as [| a rest IH]; intros out; [reflexivity |].
  cbn [fold_left]. rewrite <- IH. reflexivity.
Qed.

Lemma replay_flat (h : handler) (l : list groupOrAttrs) (out : gmap string OutVal) :
  opensNoGroup l ->
  fold_left (replayGoa h) l {| heap := [out]; cur := 0; groups := [] |}
  = {| heap := [fold_left (batchStep h) l out]; cur := 0; groups := [] |}.
Proof.
  intros Hl. revert out. induction Hl as [| goa rest Hg _ IH]; intros out; [reflexivity |].
  cbn [fold_left]. rewrite <- IH. f_equal. unfold replayGoa.
  destruct (decide (group goa ≠ "")) as [Hne | _]; [contradiction |].
  cbn [heap cur groups]. rewrite replayBatch_flat. reflexivity.
Qed.

Lemma attrs_flat (h : handler) (l : list Attr) (out : gmap string OutVal) :
  fold_left (handleAttr h) l {| heap := [out]; cur := 0; groups := [] |}
  = {| heap := [fold_left (attrStep h) l out]; cur := 0; groups := [] |}.
Proof.
  revert out. induction l as [| a rest IH]; intros out; [reflexivity |].
  cbn [fold_left]. rewrite <- IH. reflexivity.
Qed.

Lemma handleState_flat (h : handler) (r : slogRecord) :
  opensNoGroup (effectiveGoas h r) ->
  handleState h r = {| heap := [flatOut h r]; cur := 0; groups := [] |}.
Proof.
  intros Hl. unfold handleState, flatOut.
  rewrite replay_flat by exact Hl. apply attrs_flat.
Qed.

(** With no group open the document is the single map [out]. *)
Lemma Handle_flat (h : handler) (r : slogRecord) :
  opensNoGroup (effectiveGoas h r) -> Handle h r = flatOut h r.
Proof.
  intros Hl. unfold Handle. rewrite handleState_flat by exact Hl.
  cbn [heap length resolve lookup list_lookup default].
  apply noRef_deref, flatOut_noRef.
Qed.

Lemma attrStep_lookup_new (h : handler) (out : gmap string OutVal) (a : Attr) :
  attrStep h out a !! Key (replaceAttr h [] a)
  = Some (extractValue (Val (replaceAttr h [] a))).
Proof. unfold attrStep. apply lookup_insert_eq. Qed.

Lemma attrStep_lookup_other (h : handler) (out : gmap string OutVal) (a : Attr)
    (k : string) :
  Key (replaceAttr h [] a) ≠ k ->
  (Key (replaceAttr h [] a) = ErrorKey -> k ∉ errorReportKeys) ->
  attrStep h out a !! k = out !! k.
Proof.
  intros Hne Herr. unfold attrStep. rewrite lookup_insert_ne by exact Hne.
  destruct (decide (Key (replaceAttr h [] a) = ErrorKey)) as [Hk | Hk].
  - destruct (checkAndSetErrorReport_fires _ out Hk) as (_ & _ & _ & _ & _ & Hrest).
    apply Hrest, Herr, Hk.
  - rewrite checkAndSetErrorReport_other by exact Hk. reflexivity.
Qed.

Lemma fold_attrStep_lookup (h : handler) (post : list Attr) (out : gmap string OutVal)
    (k : string) :
  Forall (fun b => Key (replaceAttr h [] b) ≠ k
                   /\ (Key (replaceAttr h [] b) = ErrorKey -> k ∉ errorReportKeys)) post ->
  fold_left (attrStep h) post out !! k = out !! k.
Proof.
  intros Hpost. revert out.
  induction Hpost as [| b rest [Hne Herr] _ IH]; intros out; [reflexivity |].
  cbn [fold_left]. rewrite IH. apply attrStep_lookup_other; assumption.
Qed.

Lemma effectiveGoas_with_attrs (h : handler) (r : slogRecord) :
  NumAttrs r ≠ 0%nat -> effectiveGoas h r = goas h.
Proof.
  intros Hn. unfold effectiveGoas.
  destruct (decide (NumAttrs r = 0%nat)); [contradiction | reflexivity].
Qed.

Lemma NumAttrs_middle (r : slogRecord) (pre post : list Attr) (a : Attr) :
  Attrs r = pre ++ a :: post -> NumAttrs r ≠ 0%nat.
Proof.
  intros Hr. unfold NumAttrs. rewrite Hr, length_app. cbn [length]. lia.
Qed.

(** The document of a record whose attributes are [pre ++ a :: post], on
    a stack that opens no group. *)
Lemma Handle_flat_middle (h : handler) (r : slogRecord) (pre post : list Attr) (a : Attr) :
  opensNoGroup (goas h) ->
  Attrs r = pre ++ a :: post ->
  exists out, Handle h r = fold_left (attrStep h) post (attrStep h out a).
Proof.
  intros Hg Hr.
  pose proof (effectiveGoas_with_attrs h r (NumAttrs_middle r pre post a Hr)) as Heff.
  rewrite Handle_flat by (rewrite Heff; exact Hg).
  unfold flatOut. rewrite Hr, fold_left_app. cbn [fold_left].
  eexists. reflexivity.
Qed.

(* ===================================================================== *)
(** ** The built-in fields                                                *)
(* ===================================================================== *)

(** C7, as the code has it: the message key is written with the record's
    message only when the message is not empty, the time key only when the
    timestamp is not zero, the source-location key only when source capture
    is on and the record has a source; the severity key always.  With an
    empty stack and no attributes these fields are the whole document. *)
Theorem Handle_builtin_fields (h : handler) (r : slogRecord) :
  baseFields h r !! MessageKey
  = (if decide (Message r = "") then None else Some (OString (Message r)))
  /\ baseFields h r !! TimeKey
     = (if IsZero (Time r) then None else Some (OTime (Time r)))
  /\ baseFields h r !! SourceLocationKey
     = (if AddSource (opts h) then OSource <$> RSource r else None)
  /\ baseFields h r !! SeverityKey = Some (OString (severityFromLevel (RLevel r)))
  /\ (forall k, k ∉ builtinKeys -> baseFields h r !! k = None)
  /\ (goas h = [] -> Attrs r = [] -> Handle h r = baseFields h r).
Proof.
  split; [| split; [| split; [| split; [| split]]]].
  - rewrite baseFields_lookup. unfold SeverityKey, MessageKey.
    repeat case_decide; try reflexivity; try discriminate; congruence.
  - rewrite baseFields_lookup.
    unfold SeverityKey, MessageKey, SourceLocationKey, TimeKey.
    repeat case_decide; try reflexivity; try discriminate; congruence.
  - rewrite baseFields_lookup.
    unfold SeverityKey, MessageKey, SourceLocationKey.
    repeat case_decide; try reflexivity; try discriminate; congruence.
  - rewrite baseFields_lookup. case_decide; [reflexivity | congruence].
  - intros k Hk. unfold builtinKeys in Hk. rewrite !not_elem_of_cons in Hk.
    destruct Hk as (H1 & H2 & H3 & H4 & _).
    rewrite baseFields_lookup. repeat case_decide; try reflexivity; contradiction.
  - intros Hg Hr.
    assert (Heff : effectiveGoas h r = []).
    { unfold effectiveGoas. rewrite Hg. destruct (decide _); reflexivity. }
    rewrite Handle_flat by (rewrite Heff; constructor).
    unfold flatOut. rewrite Heff, Hr. reflexivity.
Qed.

Lemma Handle_builtin_fields_witness :
  Handle (TestValues.logger None) (TestValues.record LevelInfo "hello" []) !! MessageKey
  = Some (OString "hello")
  /\ Handle (TestValues.logger None)
            {| Time := 0; Message := ""; RLevel := LevelInfo; RSource := None; Attrs := [] |}
     = <[SeverityKey := OString InfoSeverity]> ∅.
Proof.
  split.
  - rewrite (proj2 (proj2 (proj2 (proj2 (proj2
               (Handle_builtin_fields (TestValues.logger None)
                  (TestValues.record LevelInfo "hello" [])))))) eq_refl eq_refl).
    apply (proj1 (Handle_builtin_fields (TestValues.logger None)
                    (TestValues.record LevelInfo "hello" []))).
  - rewrite (proj2 (proj2 (proj2 (proj2 (proj2
               (Handle_builtin_fields (TestValues.logger None)
                  {| Time := 0; Message := ""; RLevel := LevelInfo; RSource := None;
                     Attrs := [] |}))))) eq_refl eq_refl).
    reflexivity.
Defined.

(** C7 as stated fails: an accepted record with the empty message has no
    message key in its document. *)
Lemma empty_message_has_no_message_key :
  Enabled (TestValues.logger None) LevelInfo = true
  /\ Handle (TestValues.logger None) (TestValues.record LevelInfo "" []) !! MessageKey
     = None
  /\ Handle (TestValues.logger None) (TestValues.record LevelInfo "" []) !! MessageKey
     ≠ Some (OString (Message (TestValues.record LevelInfo "" []))).
Proof.
  split; [reflexivity |]. split; [reflexivity | discriminate].
Qed.

(** C10: on a stack that opens no group, a record attribute whose key
    (after the replacement hook) is one of the built-in keys ends up in the
    top-level map in place of the computed field, as long as no later
    record attribute writes that key again (a later error attribute rewrites
    the message). *)
Theorem record_attr_overwrites_builtin (h : handler) (r : slogRecord)
    (pre post : list Attr) (a : Attr) :
  opensNoGroup (goas h) ->
  Attrs r = pre ++ a :: post ->
  Key (replaceAttr h [] a) ∈ builtinKeys ->
  Forall (fun b => Key (replaceAttr h [] b) ≠ Key (replaceAttr h [] a)
                   /\ (Key (replaceAttr h [] a) = MessageKey ->
                       Key (replaceAttr h [] b) ≠ ErrorKey)) post ->
  Handle h r !! Key (replaceAttr h [] a) = Some (extractValue (Val (replaceAttr h [] a))).
Proof.
  intros Hg Hr Hbuiltin Hpost.
  destruct (Handle_flat_middle h r pre post a Hg Hr) as [out ->].
  rewrite fold_attrStep_lookup; [apply attrStep_lookup_new |].
  eapply Forall_impl; [exact Hpost |].
  intros b [Hne Hmsg]. split; [exact Hne |].
  intros Hb Hin. revert Hbuiltin Hin Hmsg.
  unfold builtinKeys, errorReportKeys, TimeKey, SourceLocationKey, MessageKey,
    SeverityKey, ErrorReportTypeKey, ErrorKey, ReportLocationKey in *.
  rewrite !elem_of_cons.
  intros [Hk | [Hk | [Hk | [Hk | Hk]]]] [Hk' | [Hk' | [Hk' | [Hk' | Hk']]]] Hmsg;
    try (inversion Hk; fail); try (inversion Hk'; fail);
    rewrite Hk in Hk'; try discriminate.
  apply Hmsg; [exact Hk | exact Hb].
Qed.

Lemma record_attr_overwrites_builtin_witness :
  Handle (TestValues.logger None)
         (TestValues.record LevelError "computed"
            [mkAttr "user" (StringValue "u"); mkAttr SeverityKey (StringValue "LOUD");
             mkAttr "more" (Int64Value 1)])
    !! SeverityKey
  = Some (OString "LOUD").
Proof.
  apply (record_attr_overwrites_builtin (TestValues.logger None)
           (TestValues.record LevelError "computed"
              [mkAttr "user" (StringValue "u"); mkAttr SeverityKey (StringValue "LOUD");
               mkAttr "more" (Int64Value 1)])
           [mkAttr "user" (StringValue "u")] [mkAttr "more" (Int64Value 1)]
           (mkAttr SeverityKey (StringValue "LOUD"))).
  - constructor.
  - reflexivity.
  - apply (bool_decide_unpack _). vm_compute. exact I.
  - repeat constructor; vm_compute; discriminate.
Defined.

(** All four built-in fields of one record replaced by its attributes. *)
Example builtin_fields_overwritten :
  let doc :=
    Handle (NewErrorReportingHandler
              (Some {| AddSource := true; OptLevel := Some LevelDebug; ReplaceAttrHook := None |}))
           {| Time := 7; Message := "computed"; RLevel := LevelError;
              RSource := Some (mkSource "main.f" "main.go" 3);
              Attrs := [mkAttr SeverityKey (StringValue "LOUD");
                        mkAttr MessageKey (Int64Value 0);
                        mkAttr TimeKey (BoolValue false);
                        mkAttr SourceLocationKey (StringValue "nowhere")] |} in
  doc !! SeverityKey = Some (OString "LOUD")
  /\ doc !! MessageKey = Some (ORaw (GInt64 0))
  /\ doc !! TimeKey = Some (ORaw (GBool false))
  /\ doc !! SourceLocationKey = Some (OString "nowhere").
Proof. repeat split. Qed.

(* ===================================================================== *)
(** ** Which error attribute is honoured                                  *)
(* ===================================================================== *)

Lemma scanAttrs_first (pre post : list Attr) (a : Attr) (out : gmap string OutVal) :
  Forall (fun b => Key b ≠ ErrorKey) pre ->
  Key a = ErrorKey ->
  scanAttrs (pre ++ a :: post) out = snd (checkAndSetErrorReport a out).
Proof.
  intros Hpre Ha. induction Hpre as [| b rest Hb _ IH].
  - cbn [app scanAttrs].
    destruct (checkAndSetErrorReport_fires a out Ha) as (Hf & _).
    destruct (checkAndSetErrorReport a out) as [found out']. cbn [fst snd] in *.
    rewrite Hf. reflexivity.
  - cbn [app scanAttrs]. rewrite checkAndSetErrorReport_other by exact Hb. exact IH.
Qed.

Lemma scanAttrs_none (l : list Attr) (out : gmap string OutVal) :
  Forall (fun b => Key b ≠ ErrorKey) l -> scanAttrs l out = out.
Proof.
  intros Hl. induction Hl as [| b rest Hb _ IH]; [reflexivity |].
  cbn [scanAttrs]. rewrite checkAndSetErrorReport_other by exact Hb. exact IH.
Qed.

(** C1, as the code has it.  Within one batch of the stack the scan
    applies the error report of the first error-keyed attribute and looks
    at no later attribute of that batch.  The record's own attributes are
    inspected after the stack: at depth zero an error-keyed record
    attribute writes the error report again, so the last such attribute
    decides the type marker, the message and the error value of the
    document, and the report location when it has one. *)
Theorem error_report_first_of_batch_last_of_record :
  (forall (pre post : list Attr) (a : Attr) (out : gmap string OutVal),
      Forall (fun b => Key b ≠ ErrorKey) pre ->
      Key a = ErrorKey ->
      scanAttrs (pre ++ a :: post) out = snd (checkAndSetErrorReport a out)
      /\ scanAttrs (pre ++ a :: post) out !! ErrorReportTypeKey
         = Some (OString ErrorReportTypeValue)
      /\ scanAttrs (pre ++ a :: post) out !! MessageKey
         = Some (OString (fst (assertErrorValue (Any (Val a)))))
      /\ scanAttrs (pre ++ a :: post) out !! ErrorKey = Some (errorField (Any (Val a)))
      /\ (forall l, snd (assertErrorValue (Any (Val a))) = Some l ->
                    scanAttrs (pre ++ a :: post) out !! ReportLocationKey
                    = Some (OLocation l)))
  /\ (forall (h : handler) (r : slogRecord) (pre post : list Attr) (a : Attr),
         opensNoGroup (goas h) ->
         Attrs r = pre ++ a :: post ->
         Key (replaceAttr h [] a) = ErrorKey ->
         Forall (fun b => Key (replaceAttr h [] b) ∉ errorReportKeys) post ->
         Handle h r !! ErrorReportTypeKey = Some (OString ErrorReportTypeValue)
         /\ Handle h r !! MessageKey
            = Some (OString (fst (assertErrorValue (Any (Val (replaceAttr h [] a))))))
         /\ Handle h r !! ErrorKey = Some (extractValue (Val (replaceAttr h [] a)))
         /\ (forall l, snd (assertErrorValue (Any (Val (replaceAttr h [] a)))) = Some l ->
                       Handle h r !! ReportLocationKey = Some (OLocation l))).
Proof.
  split.
  - intros pre post a out Hpre Ha.
    rewrite (scanAttrs_first pre post a out Hpre Ha).
    destruct (checkAndSetErrorReport_fires a out Ha) as (_ & Ht & Hm & He & Hl & _).
    split; [reflexivity |]. split; [exact Ht |]. split; [exact Hm |].
    split; [exact He |]. intros l Hloc. rewrite Hl, Hloc. reflexivity.
  - intros h r pre post a Hg Hr Ha Hpost.
    destruct (Handle_flat_middle h r pre post a Hg Hr) as [out ->].
    assert (Hkeep : forall k, k ∈ errorReportKeys ->
              fold_left (attrStep h) post (attrStep h out a) !! k = attrStep h out a !! k).
    { intros k Hk. apply fold_attrStep_lookup.
      eapply Forall_impl; [exact Hpost |].
      intros b Hb. cbv beta in Hb |- *.
      split; [intros Heq; rewrite Heq in Hb; contradiction |].
      intros Hbe. exfalso. apply Hb. rewrite Hbe.
      unfold errorReportKeys. rewrite !elem_of_cons. tauto. }
    destruct (checkAndSetErrorReport_fires _ out Ha) as (_ & Ht & Hm & _ & Hl & _).
    assert (Hstep : forall k, k ≠ ErrorKey ->
              attrStep h out a !! k
              = snd (checkAndSetErrorReport (replaceAttr h [] a) out) !! k).
    { intros k Hk. unfold attrStep. rewrite Ha. apply lookup_insert_ne. congruence. }
    unfold errorReportKeys in Hkeep.
    split; [| split; [| split]].
    + rewrite Hkeep by (rewrite !elem_of_cons; tauto).
      rewrite Hstep by discriminate. exact Ht.
    + rewrite Hkeep by (rewrite !elem_of_cons; tauto).
      rewrite Hstep by discriminate. exact Hm.
    + rewrite Hkeep by (rewrite !elem_of_cons; tauto).
      rewrite <- Ha at 1. apply attrStep_lookup_new.
    + intros l Hloc. rewrite Hkeep by (rewrite !elem_of_cons; tauto).
      rewrite Hstep by discriminate. rewrite Hl, Hloc. reflexivity.
Qed.

Lemma error_report_first_of_batch_last_of_record_witness :
  scanAttrs ([mkAttr "user" (StringValue "u")]
               ++ mkAttr ErrorKey (StringValue "first")
               :: [mkAttr ErrorKey (StringValue "second")]) ∅ !! MessageKey
  = Some (OString "first")
  /\ Handle (WithAttrs (TestValues.logger None) [mkAttr ErrorKey (StringValue "first")])
            (TestValues.record LevelError "msg" [mkAttr ErrorKey (StringValue "second")])
       !! MessageKey
     = Some (OString "second").
Proof.
  split.
  - apply (proj1 error_report_first_of_batch_last_of_record
             [mkAttr "user" (StringValue "u")] [mkAttr ErrorKey (StringValue "second")]
             (mkAttr ErrorKey (StringValue "first")) ∅).
    + repeat constructor. vm_compute. discriminate.
    + reflexivity.
  - apply (proj2 error_report_first_of_batch_last_of_record
             (WithAttrs (TestValues.logger None) [mkAttr ErrorKey (StringValue "first")])
             (TestValues.record LevelError "msg" [mkAttr ErrorKey (StringValue "second")])
             [] [] (mkAttr ErrorKey (StringValue "second"))).
    + repeat constructor.
    + reflexivity.
    + reflexivity.
    + constructor.
Defined.

(** C1 as stated fails: an error attribute of the record, or of a later
    top-level batch of the stack, replaces the report of the first error
    attribute of the stack. *)
Lemma later_error_attribute_replaces_report :
  Handle (WithAttrs (TestValues.logger None) [mkAttr ErrorKey (StringValue "first")])
         (TestValues.record LevelError "msg" [mkAttr ErrorKey (StringValue "second")])
    !! MessageKey
  = Some (OString "second")
  /\ Handle (WithAttrs
               (WithAttrs (TestValues.logger None) [mkAttr ErrorKey (StringValue "first")])
               [mkAttr ErrorKey (StringValue "second")])
            (TestValues.record LevelError "msg" [])
       !! MessageKey
     = Some (OString "second")
  /\ Handle (WithAttrs (TestValues.logger None) [mkAttr ErrorKey (StringValue "first")])
            (TestValues.record LevelError "msg" [mkAttr ErrorKey (StringValue "second")])
       !! MessageKey
     ≠ Some (OString (fst (assertErrorValue (Any (StringValue "first"))))).
Proof. split; [reflexivity |]. split; [reflexivity | discriminate]. Qed.

(* ===================================================================== *)
(** ** Trailing groups                                                    *)
(* ===================================================================== *)

Lemma dropLeadingGroups_split (l : list groupOrAttrs) :
  exists dropped,
    l = dropped ++ dropLeadingGroups l
    /\ Forall (fun goa => group goa ≠ "") dropped
    /\ (forall goa, head (dropLeadingGroups l) = Some goa -> group goa = "").
Proof.
  induction l as [| goa rest (dropped & Heq & Hdropped & Hhead)].
  - exists []. repeat split; [constructor | discriminate].
  - cbn [dropLeadingGroups]. destruct (decide (group goa ≠ "")) as [Hg | Hg].
    + exists (goa :: dropped). cbn [app]. rewrite <- Heq.
      repeat split; [constructor; assumption | exact Hhead].
    + exists []. repeat split; [constructor |].
      intros goa' [= <-]. destruct (decide (group goa = "")); [assumption | contradiction].
Qed.

Lemma trimTrailingGroups_split (l : list groupOrAttrs) :
  exists dropped,
    l = trimTrailingGroups l ++ dropped
    /\ Forall (fun goa => group goa ≠ "") dropped
    /\ (forall kept goa, trimTrailingGroups l = kept ++ [goa] -> group goa = "").
Proof.
  destruct (dropLeadingGroups_split (rev l)) as (dropped & Heq & Hdropped & Hhead).
  exists (rev dropped). unfold trimTrailingGroups. repeat split.
  - rewrite <- rev_app_distr, <- Heq, rev_involutive. reflexivity.
  - apply Forall_rev. exact Hdropped.
  - intros kept goa Hk. apply Hhead.
    apply (f_equal (@rev groupOrAttrs)) in Hk.
    rewrite rev_involutive, rev_app_distr in Hk. rewrite Hk. reflexivity.
Qed.

Lemma Handle_lookup_top (h : handler) (r : slogRecord) (out : gmap string OutVal)
    (rest : list (gmap string OutVal)) (k : string) :
  heap (handleState h r) = out :: rest ->
  Handle h r !! k
  = deref (resolve (length rest) (out :: rest)) <$> out !! k.
Proof.
  intros Hh. unfold Handle. rewrite Hh.
  cbn [length resolve lookup list_lookup default]. apply lookup_fmap.
Qed.

(** C6: trailing group openers are dropped exactly when the record has no
    attribute.  A record with attributes keeps the whole stack; a record
    without loses the group openers at the end of the stack and nothing
    else.  So a handler derived with group [g] gives a record without
    attributes no [g] key, and a handler derived with group [g] and then
    the attribute [bar = baz] gives it [g: {bar: baz}]. *)
Theorem trailing_groups_dropped_iff_no_attrs :
  (forall (h : handler) (r : slogRecord),
      NumAttrs r ≠ 0%nat -> effectiveGoas h r = goas h)
  /\ (forall (h : handler) (r : slogRecord),
         NumAttrs r = 0%nat ->
         exists dropped,
           goas h = effectiveGoas h r ++ dropped
           /\ Forall (fun goa => group goa ≠ "") dropped
           /\ (forall kept goa, effectiveGoas h r = kept ++ [goa] -> group goa = ""))
  /\ (forall (h : handler) (r : slogRecord),
         goas h = [] -> Attrs r = [] ->
         Handle (WithGroup h "g") r !! "g" = None)
  /\ (forall (h : handler) (r : slogRecord),
         goas h = [] -> ReplaceAttrHook (opts h) = None -> Attrs r = [] ->
         Handle (WithAttrs (WithGroup h "g") [mkAttr "bar" (StringValue "baz")]) r !! "g"
         = Some (OMap (<["bar" := OString "baz"]> ∅))).
Proof.
  split; [exact effectiveGoas_with_attrs |]. split; [| split].
  - intros h r Hn. unfold effectiveGoas.
    destruct (decide (NumAttrs r = 0%nat)); [| contradiction].
    apply trimTrailingGroups_split.
  - intros h r Hg Hr.
    assert (Heff : effectiveGoas (WithGroup h "g") r = []).
    { unfold effectiveGoas, NumAttrs. rewrite Hr. cbn [length].
      destruct (decide (0%nat = 0%nat)); [| contradiction].
      cbn [WithGroup withGroupOrAttrs goas]. rewrite Hg. reflexivity. }
    rewrite Handle_flat by (rewrite Heff; constructor).
    unfold flatOut. rewrite Heff, Hr. cbn [fold_left scanGoas].
    rewrite baseFields_lookup.
    unfold SeverityKey, MessageKey, SourceLocationKey, TimeKey.
    repeat case_decide; try discriminate. reflexivity.
  - intros h r Hg Hhook Hr.
    set (h' := WithAttrs (WithGroup h "g") [mkAttr "bar" (StringValue "baz")]).
    assert (Heff : effectiveGoas h' r
                   = [ {| group := "g"; attrs := [] |};
                       {| group := ""; attrs := [mkAttr "bar" (StringValue "baz")] |} ]).
    { unfold effectiveGoas, NumAttrs. rewrite Hr. cbn [length].
      destruct (decide (0%nat = 0%nat)); [| contradiction].
      subst h'. cbn [WithAttrs WithGroup withGroupOrAttrs goas]. rewrite Hg. reflexivity. }
    assert (Hrep : forall gs a, replaceAttr h' gs a = a).
    { intros gs a. unfold replaceAttr. subst h'.
      cbn [WithAttrs WithGroup withGroupOrAttrs opts]. rewrite Hhook. reflexivity. }
    assert (Hheap : heap (handleState h' r)
                    = [ <["g" := ORef 1]> (baseFields h' r);
                        <["bar" := OString "baz"]> ∅ ]).
    { unfold handleState. rewrite Heff, Hr.
      cbn [fold_left scanGoas group]. 
      destruct (decide ("g" ≠ "")) as [_ | Hc]; [| exfalso; apply Hc; discriminate].
      unfold replayGoa. cbn [group attrs heap cur groups fold_left].
      destruct (decide ("g" ≠ "")) as [_ | Hc]; [| exfalso; apply Hc; discriminate].
      cbn [heap cur groups].
      destruct (decide ("" ≠ "")) as [Hc | _]; [contradiction |].
      cbn [heap cur groups]. rewrite Hrep. reflexivity. }
    rewrite (Handle_lookup_top h' r _ _ "g" Hheap).
    rewrite lookup_insert_eq. reflexivity.
Qed.

Lemma trailing_groups_dropped_iff_no_attrs_witness :
  effectiveGoas (WithGroup (TestValues.logger None) "g")
                (TestValues.record LevelInfo "m" [mkAttr "k" (Int64Value 1)])
  = [ {| group := "g"; attrs := [] |} ]
  /\ Handle (WithGroup (TestValues.logger None) "g") (TestValues.record LevelInfo "m" [])
       !! "g" = None
  /\ Handle (WithAttrs (WithGroup (TestValues.logger None) "g")
                       [mkAttr "bar" (StringValue "baz")])
            (TestValues.record LevelInfo "m" []) !! "g"
     = Some (OMap (<["bar" := OString "baz"]> ∅)).
Proof.
  split; [| split].
  - apply (proj1 trailing_groups_dropped_iff_no_attrs
             (WithGroup (TestValues.logger None) "g")
             (TestValues.record LevelInfo "m" [mkAttr "k" (Int64Value 1)])).
    vm_compute. discriminate.
  - apply (proj1 (proj2 (proj2 trailing_groups_dropped_iff_no_attrs))
             (TestValues.logger None) (TestValues.record LevelInfo "m" []));
      reflexivity.
  - apply (proj2 (proj2 (proj2 trailing_groups_dropped_iff_no_attrs))
             (TestValues.logger None) (TestValues.record LevelInfo "m" []));
      reflexivity.
Defined.

(* ===================================================================== *)
(** ** Attributes of the stack                                            *)
(* ===================================================================== *)

(** What the replay stores for the attribute of a one-batch stack, and
    what the record loop stores for the same attribute. *)
Lemma stack_attr_stored_raw (h : handler) (r : slogRecord) (a : Attr) :
  goas h = [] -> Attrs r = [] ->
  Handle (WithAttrs h [a]) r !! Key (replaceAttr h [] a)
  = Some (ORaw (Any (Val (replaceAttr h [] a)))).
Proof.
  intros Hg Hr.
  assert (Heff : effectiveGoas (WithAttrs h [a]) r = [ {| group := ""; attrs := [a] |} ]).
  { unfold effectiveGoas, NumAttrs. rewrite Hr. cbn [length].
    destruct (decide (0%nat = 0%nat)); [| contradiction].
    cbn [WithAttrs withGroupOrAttrs goas]. rewrite Hg. reflexivity. }
  rewrite Handle_flat by (rewrite Heff; repeat constructor).
  unfold flatOut. rewrite Heff, Hr. cbn [fold_left]. unfold batchStep.
  cbn [attrs fold_left]. apply lookup_insert_eq.
Qed.

Lemma record_attr_stored_extracted (h : handler) (r : slogRecord) (a : Attr) :
  goas h = [] -> Attrs r = [a] ->
  Handle h r !! Key (replaceAttr h [] a)
  = Some (extractValue (Val (replaceAttr h [] a))).
Proof.
  intros Hg Hr.
  destruct (Handle_flat_middle h r [] [] a) as [out ->].
  - rewrite Hg. constructor.
  - exact Hr.
  - apply attrStep_lookup_new.
Qed.

(** C2 at a failing input: an error and a Stringer attached with
    [WithAttrs] reach the document as the values themselves, while the same
    attributes on the record reach it as their texts. *)
Theorem stack_attrs_are_not_extracted :
  Handle (WithAttrs (TestValues.logger None)
            [mkAttr "cause" (AnyValue (TestValues.errorsNew "boom"));
             mkAttr "who" (AnyValue TestValues.stringer)])
         (TestValues.record LevelInfo "m" [])
  = <["who" := ORaw (GDyn TestValues.stringer)]>
      (<["cause" := ORaw (GDyn (TestValues.errorsNew "boom"))]>
         (baseFields (TestValues.logger None) (TestValues.record LevelInfo "m" [])))
  /\ Handle (TestValues.logger None)
            (TestValues.record LevelInfo "m"
               [mkAttr "cause" (AnyValue (TestValues.errorsNew "boom"));
                mkAttr "who" (AnyValue TestValues.stringer)])
     = <["who" := OString "stringer"]>
         (<["cause" := OString "boom"]>
            (baseFields (TestValues.logger None) (TestValues.record LevelInfo "m" []))).
Proof. split; vm_compute; reflexivity. Qed.

(** C3 at a failing input: with the hook that renames [err] to the error
    key, an [err] attribute attached with [WithAttrs] is renamed in the
    document but raises no error report, while the same attribute on the
    record does. *)
Theorem hook_runs_after_stack_scan :
  Handle (WithAttrs (TestValues.logger (Some TestValues.errToErrorKey))
            [mkAttr "err" (StringValue "boom")])
         (TestValues.record LevelError "msg" [])
  = <[ErrorKey := OString "boom"]>
      (baseFields (TestValues.logger None) (TestValues.record LevelError "msg" []))
  /\ Handle (WithAttrs (TestValues.logger (Some TestValues.errToErrorKey))
               [mkAttr "err" (StringValue "boom")])
            (TestValues.record LevelError "msg" []) !! ErrorReportTypeKey = None
  /\ Handle (WithAttrs (TestValues.logger (Some TestValues.errToErrorKey))
               [mkAttr "err" (StringValue "boom")])
            (TestValues.record LevelError "msg" []) !! MessageKey = Some (OString "msg")
  /\ Handle (TestValues.logger (Some TestValues.errToErrorKey))
            (TestValues.record LevelError "msg" [mkAttr "err" (StringValue "boom")])
     = <[ErrorKey := OString "boom"]>
         (<[MessageKey := OString "boom"]>
            (<[ErrorReportTypeKey := OString ErrorReportTypeValue]>
               (baseFields (TestValues.logger None)
                  (TestValues.record LevelError "msg" [])))).
Proof. repeat split; vm_compute; reflexivity. Qed.

(* ===================================================================== *)
(** ** replace.go                                                         *)
(* ===================================================================== *)

(** C5, as the code has it: at depth zero the level attribute becomes the
    severity attribute; its label is the one [severityFromLevel] gives when
    the level is exactly debug, info, warn or error, and DEFAULT for every
    other level as well as for a value that is not a level. *)
Theorem ReplaceAttr_level (a : Attr) :
  Key a = Replace.slogLevelKey ->
  (forall l : Level,
      Val a = LevelValue l ->
      Replace.ReplaceAttr [] a
      = Replace.slogString Replace.SeverityKey
          (if decide (l ∈ [slogLevelDebug; slogLevelInfo; slogLevelWarn; slogLevelError])
           then severityFromLevel l
           else Replace.DefaultSeverity))
  /\ ((forall l : Level, Val a ≠ LevelValue l) ->
      Replace.ReplaceAttr [] a
      = Replace.slogString Replace.SeverityKey Replace.DefaultSeverity).
Proof.
  intros Hk. unfold Replace.ReplaceAttr. rewrite Hk.
  destruct (decide (Replace.slogLevelKey = Replace.slogTimeKey ∧ length (@nil string) = 0%nat))
    as [[Hc _] | _]; [discriminate |].
  destruct (decide (Replace.slogLevelKey = Replace.slogLevelKey ∧ length (@nil string) = 0%nat))
    as [_ | Hc]; [| exfalso; apply Hc; split; reflexivity].
  split.
  - intros l ->. cbn [Any].
    unfold slogLevelDebug, slogLevelInfo, slogLevelWarn, slogLevelError.
    destruct (Z.eqb_spec l (-4)) as [-> | H1]; [reflexivity |].
    destruct (Z.eqb_spec l 0) as [-> | H2]; [reflexivity |].
    destruct (Z.eqb_spec l 4) as [-> | H3]; [reflexivity |].
    destruct (Z.eqb_spec l 8) as [-> | H4]; [reflexivity |].
    destruct (decide _) as [Hin | _]; [| reflexivity].
    rewrite !elem_of_cons in Hin. exfalso.
    destruct Hin as [? | [? | [? | [? | Hnil]]]]; try contradiction. inversion Hnil.
  - intros Hv. destruct (Val a) as [s | n | b | l | lv | src | o]; try reflexivity.
    exfalso. eapply Hv. reflexivity.
Qed.

Lemma ReplaceAttr_level_witness :
  Replace.ReplaceAttr [] (mkAttr "level" (LevelValue slogLevelWarn))
  = mkAttr "severity" (StringValue "WARNING")
  /\ Replace.ReplaceAttr [] (mkAttr "level" (StringValue "WARN"))
     = mkAttr "severity" (StringValue "DEFAULT").
Proof.
  split.
  - apply (proj1 (ReplaceAttr_level (mkAttr "level" (LevelValue slogLevelWarn)) eq_refl)
             slogLevelWarn eq_refl).
  - apply (proj2 (ReplaceAttr_level (mkAttr "level" (StringValue "WARN")) eq_refl)).
    discriminate.
Defined.

(** C5 as stated fails: the notice, critical, alert and emergency levels
    get the DEFAULT label from [ReplaceAttr], not their own. *)
Lemma ReplaceAttr_extended_levels_default :
  map (fun l => Replace.ReplaceAttr [] (mkAttr Replace.slogLevelKey (LevelValue l)))
      [LevelNotice; LevelCritical; LevelAlert; LevelEmergency]
  = map (fun _ => mkAttr "severity" (StringValue "DEFAULT"))
      [LevelNotice; LevelCritical; LevelAlert; LevelEmergency]
  /\ map severityFromLevel [LevelNotice; LevelCritical; LevelAlert; LevelEmergency]
     = ["NOTICE"; "CRITICAL"; "ALERT"; "EMERGENCY"]
  /\ Replace.ReplaceAttr [] (mkAttr Replace.slogLevelKey (LevelValue LevelNotice))
     ≠ mkAttr SeverityKey (StringValue (severityFromLevel LevelNotice)).
Proof. split; [reflexivity |]. split; [reflexivity | discriminate]. Qed.

(* ===================================================================== *)
(** ** The fuel of Handle is enough                                       *)
(* ===================================================================== *)

Lemma resolve_fuel (hp : list (gmap string OutVal)) :
  heapOrdered hp ->
  forall (d i f1 f2 : nat),
    (length hp - i <= d)%nat -> (d <= f1)%nat -> (d <= f2)%nat ->
    resolve f1 hp i = resolve f2 hp i.
Proof.
  intros Hord. induction d as [| d IH]; intros i f1 f2 Hd H1 H2.
  - assert (Hnone : hp !! i = None) by (apply lookup_ge_None_2; lia).
    destruct f1, f2; cbn [resolve]; rewrite ?Hnone; cbn [default];
      rewrite ?fmap_empty; reflexivity.
  - destruct (hp !! i) as [m |] eqn:Hm.
    + destruct f1 as [| n1]; [apply lookup_lt_Some in Hm; lia |].
      destruct f2 as [| n2]; [apply lookup_lt_Some in Hm; lia |].
      cbn [resolve]. rewrite Hm. cbn [default].
      apply map_fmap_ext. intros k v Hk.
      destruct v; try reflexivity. cbn [deref]. f_equal.
      pose proof (Hord _ _ _ _ Hm Hk) as Hlt. apply IH; lia.
    + destruct f1, f2; cbn [resolve]; rewrite ?Hm; cbn [default];
        rewrite ?fmap_empty; reflexivity.
Qed.

Lemma heapOrdered_alter (hp : list (gmap string OutVal)) (i : nat)
    (f : gmap string OutVal -> gmap string OutVal) :
  heapOrdered hp ->
  (forall m k ref, hp !! i = Some m -> f m !! k = Some (ORef ref) -> (i < ref)%nat) ->
  heapOrdered (alter f i hp).
Proof.
  intros Hord Hf j m k ref Hj Hk. destruct (decide (i = j)) as [<- | Hne].
  - rewrite list_lookup_alter_eq in Hj.
    destruct (hp !! i) as [m0 |] eqn:Hi; [| discriminate].
    injection Hj as <-. exact (Hf _ _ _ eq_refl Hk).
  - rewrite list_lookup_alter_ne in Hj by exact Hne. exact (Hord _ _ _ _ Hj Hk).
Qed.

Lemma heapOrdered_store (hp : list (gmap string OutVal)) (i : nat) (k : string)
    (v : OutVal) :
  (forall ref, v = ORef ref -> (i < ref)%nat) ->
  heapOrdered hp -> heapOrdered (store i k v hp).
Proof.
  intros Hv Hord. apply heapOrdered_alter; [exact Hord |].
  intros m k' ref Hm Hk. destruct (decide (k = k')) as [<- | Hne].
  - rewrite lookup_insert_eq in Hk. injection Hk as ->. apply Hv. reflexivity.
  - rewrite lookup_insert_ne in Hk by exact Hne. exact (Hord _ _ _ _ Hm Hk).
Qed.

Lemma heapOrdered_snoc (hp : list (gmap string OutVal)) :
  heapOrdered hp -> heapOrdered (hp ++ [∅]).
Proof.
  intros Hord i m k ref Hi Hk. apply lookup_snoc_Some in Hi.
  destruct Hi as [[_ Hi] | [_ <-]].
  - exact (Hord _ _ _ _ Hi Hk).
  - rewrite lookup_empty in Hk. discriminate.
Qed.

Lemma replayGoa_ok (h : handler) (st : HState) (goa : groupOrAttrs) :
  stateOk st -> stateOk (replayGoa h st goa).
Proof.
  intros [Hord Hcur]. unfold replayGoa.
  destruct (decide (group goa ≠ "")) as [_ | _]; split; cbn [heap cur].
  - apply heapOrdered_store; [| apply heapOrdered_snoc; exact Hord].
    intros ref [= <-]. exact Hcur.
  - unfold store. rewrite length_alter, length_app. cbn [length]. lia.
  - generalize (attrs goa) as l. intros l. revert Hord Hcur.
    generalize (heap st) as hp. intros hp. revert hp.
    induction l as [| a rest IH]; intros hp Hord Hcur; [exact Hord |].
    cbn [fold_left]. apply IH.
    + apply heapOrdered_store; [discriminate | exact Hord].
    + unfold store. rewrite length_alter. exact Hcur.
  - assert (Hlen : forall l hp,
               length (fold_left
                         (fun hp a =>
                            let a := replaceAttr h (groups st) a in
                            store (cur st) (Key a) (ORaw (Any (Val a))) hp) l hp)
               = length hp).
    { induction l as [| a rest IH]; intros hp; [reflexivity |].
      cbn [fold_left]. rewrite IH. unfold store. apply length_alter. }
    rewrite Hlen. exact Hcur.
Qed.

Lemma handleAttr_ok (h : handler) (st : HState) (a : Attr) :
  stateOk st -> stateOk (handleAttr h st a).
Proof.
  intros [Hord Hcur]. unfold handleAttr. split; cbn [heap cur].
  - apply heapOrdered_store.
    + intros ref Href. exfalso. exact (extractValue_not_ref _ _ Href).
    + destruct (decide (length (groups st) = 0%nat)); [| exact Hord].
      apply heapOrdered_alter; [exact Hord |].
      intros m k ref Hm Hk. apply checkAndSetErrorReport_ref in Hk.
      exact (Hord _ _ _ _ Hm Hk).
  - unfold store. rewrite length_alter.
    destruct (decide (length (groups st) = 0%nat)); [| exact Hcur].
    rewrite length_alter. exact Hcur.
Qed.

Lemma fold_stateOk {A : Type} (f : HState -> A -> HState) (l : list A) (st : HState) :
  (forall s x, stateOk s -> stateOk (f s x)) -> stateOk st -> stateOk (fold_left f l st).
Proof.
  intros Hf. revert st. induction l as [| x rest IH]; intros st Hst; [exact Hst |].
  cbn [fold_left]. apply IH, Hf, Hst.
Qed.

Lemma handleState_ok (h : handler) (r : slogRecord) : stateOk (handleState h r).
Proof.
  unfold handleState.
  apply fold_stateOk; [intros; by apply handleAttr_ok |].
  apply fold_stateOk; [intros; by apply replayGoa_ok |].
  split; cbn [heap cur length]; [| lia].
  intros i m k ref Hi Hk. apply list_lookup_singleton_Some in Hi as [-> <-].
  exfalso. revert Hk. apply scanGoas_noRef, baseFields_noRef.
Qed.

(** Every group map of the document is read in full: more fuel than the
    number of maps gives the same document. *)
Lemma Handle_fuel_enough (h : handler) (r : slogRecord) (extra : nat) :
  resolve (length (heap (handleState h r)) + extra) (heap (handleState h r)) 0
  = Handle h r.
Proof.
  unfold Handle. destruct (handleState_ok h r) as [Hord _].
  apply (resolve_fuel _ Hord (length (heap (handleState h r)))); lia.
Qed.

(* ===================================================================== *)
(** ** Cases of TestHandler                                               *)
(* ===================================================================== *)

(** "log warn with group and attrs": the error key inside a group is an
    ordinary attribute. *)
Example handler_warn_with_group_and_attrs :
  Handle (WithAttrs (WithGroup (TestValues.logger None) "group")
            [mkAttr "bar" (StringValue "baz"); mkAttr "baz" (Int64Value 42)])
         (TestValues.record LevelWarning "warn message"
            [mkAttr "error" (StringValue "grouped error")])
  = <["group" := OMap (<["error" := OString "grouped error"]>
                         (<["baz" := ORaw (GInt64 42)]>
                            (<["bar" := OString "baz"]> ∅)))]>
      (baseFields (TestValues.logger None)
         (TestValues.record LevelWarning "warn message" [])).
Proof. vm_compute. reflexivity. Qed.

(** "log stackAndReportValuer": trace as message, [LogValue()] as error
    value, location from the error. *)
Example handler_stack_and_report_valuer :
  Handle (TestValues.logger None)
         (TestValues.record LevelError "error message"
            [mkAttr "error" (AnyValue (TestValues.mockStackAndReportValuer true))])
  = <[ReportLocationKey := OLocation TestValues.mockReportLocation]>
      (<[ErrorKey := OMap (<["key2" := ORaw (GInt64 42)]>
                             (<["key1" := OString "value1"]> ∅))]>
         (<[MessageKey := OString "stack"]>
            (<[ErrorReportTypeKey := OString ErrorReportTypeValue]>
               (baseFields (TestValues.logger None)
                  (TestValues.record LevelError "error message" []))))).
Proof. vm_compute. reflexivity. Qed.

(** "debug disabled": with the default options a debug record is not
    accepted. *)
Example handler_debug_disabled :
  Enabled (NewErrorReportingHandler None) LevelDebug = false
  /\ Enabled (NewErrorReportingHandler None) LevelInfo = true.
Proof. split; reflexivity. Qed.

(* ===================================================================== *)
(** ** The document as a tree                                             *)
(* ===================================================================== *)

Lemma store_last (hp : list (gmap string OutVal)) (m : gmap string OutVal)
    (rest : list (gmap string OutVal)) (k : string) (v : OutVal) :
  store (length hp) k v (hp ++ m :: rest) = hp ++ <[k := v]> m :: rest.
Proof.
  unfold store. replace (length hp) with (length hp + 0)%nat by lia.
  rewrite alter_app_r. reflexivity.
Qed.

Lemma attrInto_noRef (h : handler) (gs : list string) (a : Attr)
    (m : gmap string OutVal) :
  noRef m -> noRef (attrInto h gs m a).
Proof.
  intros Hm. unfold attrInto. apply noRef_insert; [apply extractValue_not_ref |].
  destruct (decide (length gs = 0%nat)); [| exact Hm].
  apply checkAndSetErrorReport_noRef. exact Hm.
Qed.

Lemma batchInto_noRef (h : handler) (gs : list string) (goa : groupOrAttrs)
    (m : gmap string OutVal) :
  noRef m -> noRef (batchInto h gs m goa).
Proof.
  unfold batchInto. apply fold_noRef. intros m' a Hm'.
  apply noRef_insert; [discriminate | exact Hm'].
Qed.

Lemma noRef_empty : noRef ∅.
Proof. intros k r. rewrite lookup_empty. discriminate. Qed.

Lemma handleAttrs_last (h : handler) (l : list Attr) (hp : list (gmap string OutVal))
    (m : gmap string OutVal) (gs : list string) :
  (gs = [] <-> hp = []) ->
  fold_left (handleAttr h) l {| heap := hp ++ [m]; cur := length hp; groups := gs |}
  = {| heap := hp ++ [fold_left (attrInto h gs) l m]; cur := length hp; groups := gs |}.
Proof.
  intros Hgs. revert m. induction l as [| a rest IH]; intros m; [reflexivity |].
  cbn [fold_left]. rewrite <- IH. f_equal.
  unfold handleAttr, attrInto. cbn [heap cur groups].
  destruct (decide (length gs = 0%nat)) as [Hz | Hnz].
  - assert (Hgs' : gs = []) by (destruct gs; [reflexivity | discriminate]).
    rewrite (proj1 Hgs Hgs'). reflexivity.
  - rewrite store_last. reflexivity.
Qed.

Lemma replayBatch_last (h : handler) (l : list Attr) (hp : list (gmap string OutVal))
    (m : gmap string OutVal) (gs : list string) :
  fold_left
    (fun hp' a =>
       let a := replaceAttr h gs a in store (length hp) (Key a) (ORaw (Any (Val a))) hp')
    l (hp ++ [m])
  = hp ++ [fold_left
             (fun m a => let a := replaceAttr h gs a in <[Key a := ORaw (Any (Val a))]> m)
             l m].
Proof.
  revert m. induction l as [| a rest IH]; intros m; [reflexivity |].
  cbn [fold_left]. rewrite <- IH. cbv zeta. rewrite store_last. reflexivity.
Qed.

(** The heap [Handle] builds, read from the map that was current at the
    start, is the tree [nest]; the maps allocated before are untouched. *)
Lemma runFrom_nest (h : handler) (rattrs : list Attr) (l : list groupOrAttrs) :
  forall (hp : list (gmap string OutVal)) (m : gmap string OutVal) (gs : list string),
    noRef m ->
    (gs = [] <-> hp = []) ->
    exists tail,
      heap (runFrom h rattrs l {| heap := hp ++ [m]; cur := length hp; groups := gs |})
      = hp ++ tail
      /\ forall fuel, (length tail <= fuel)%nat ->
           resolve fuel (hp ++ tail) (length hp) = nest h rattrs l gs m.
Proof.
  induction l as [| goa rest IH]; intros hp m gs Hm Hgs.
  - unfold runFrom. cbn [fold_left nest]. rewrite handleAttrs_last by exact Hgs.
    cbn [heap]. eexists. split; [reflexivity |].
    intros fuel Hfuel. destruct fuel as [| f]; [cbn [length] in Hfuel; lia |].
    cbn [resolve]. rewrite list_lookup_middle by reflexivity. cbn [default].
    apply noRef_deref. apply fold_noRef; [| exact Hm].
    intros m' a Hm'. apply attrInto_noRef. exact Hm'.
  - unfold runFrom. cbn [fold_left nest]. unfold replayGoa at 2.
    cbn [heap cur groups].
    destruct (decide (group goa ≠ "")) as [Hg | Hg].
    + rewrite length_app. cbn [length].
      rewrite <- (app_assoc hp [m] [∅]). cbn [app]. rewrite store_last.
      set (mg := <[group goa := ORef (length hp + 1)]> m).
      destruct (IH (hp ++ [mg]) ∅ (gs ++ [group goa]) noRef_empty) as (tail & Hheap & Hres).
      { split; intros Hnil; exfalso.
        - destruct gs; discriminate.
        - destruct hp; discriminate. }
      unfold runFrom in Hheap. rewrite length_app in Hheap, Hres.
      cbn [length] in Hheap, Hres.
      rewrite <- (app_assoc hp [mg] [∅]) in Hheap. cbn [app] in Hheap.
      rewrite Hheap.
      exists (mg :: tail). rewrite <- app_assoc. cbn [app].
      split; [reflexivity |].
      intros fuel Hfuel. destruct fuel as [| f]; [cbn [length] in Hfuel; lia |].
      cbn [length] in Hfuel.
      cbn [resolve]. rewrite list_lookup_middle by reflexivity. cbn [default].
      unfold id. subst mg. rewrite fmap_insert. cbn [deref].
      rewrite noRef_deref by exact Hm.
      rewrite <- (Hres f) by lia.
      rewrite <- app_assoc. reflexivity.
    + rewrite replayBatch_last.
      apply (IH hp _ gs); [| exact Hgs].
      apply batchInto_noRef with (goa := goa) (h := h) (gs := gs) in Hm. exact Hm.
Qed.

Lemma Handle_nest (h : handler) (r : slogRecord) :
  Handle h r
  = nest h (Attrs r) (effectiveGoas h r) []
      (scanGoas (effectiveGoas h r) (baseFields h r)).
Proof.
  destruct (runFrom_nest h (Attrs r) (effectiveGoas h r) []
              (scanGoas (effectiveGoas h r) (baseFields h r)) [])
    as (tail & Hheap & Hres).
  - apply scanGoas_noRef, baseFields_noRef.
  - split; reflexivity.
  - unfold Handle. change (handleState h r)
      with (runFrom h (Attrs r) (effectiveGoas h r)
              {| heap := [] ++ [scanGoas (effectiveGoas h r) (baseFields h r)];
                 cur := length (@nil (gmap string OutVal)); groups := [] |}).
    rewrite Hheap. cbn [app length] in *. apply Hres. lia.
Qed.

(** X1: how [Handle] nests.  Although the group maps are filled in after
    they have been stored in their parent, the document is the tree that
    the stack and the record attributes make of the built-in fields and
    the stack's error report: every group opener contributes one map under
    its name in the enclosing map, holding all that is replayed after it,
    and the record attributes go to the innermost group.  Reading the heap
    with more fuel gives the same document. *)
Theorem Handle_document_tree (h : handler) (r : slogRecord) :
  Handle h r
  = nest h (Attrs r) (effectiveGoas h r) []
      (scanGoas (effectiveGoas h r) (baseFields h r))
  /\ (forall extra : nat,
        resolve (length (heap (handleState h r)) + extra) (heap (handleState h r)) 0
        = nest h (Attrs r) (effectiveGoas h r) []
            (scanGoas (effectiveGoas h r) (baseFields h r))).
Proof.
  split; [apply Handle_nest |].
  intros extra. rewrite Handle_fuel_enough. apply Handle_nest.
Qed.

(* ===================================================================== *)
(** ** Which stack Handle replays                                         *)
(* ===================================================================== *)

Lemma dropLeadingGroups_all (l : list groupOrAttrs) :
  Forall (fun goa => group goa ≠ "") l -> dropLeadingGroups l = [].
Proof.
  intros Hl. induction Hl as [| goa rest Hg _ IH]; [reflexivity |].
  cbn [dropLeadingGroups]. destruct (decide (group goa ≠ "")); [exact IH | contradiction].
Qed.

Lemma trimTrailingGroups_all (l : list groupOrAttrs) :
  Forall (fun goa => group goa ≠ "") l -> trimTrailingGroups l = [].
Proof.
  intros Hl. unfold trimTrailingGroups.
  rewrite dropLeadingGroups_all by (apply Forall_rev; exact Hl). reflexivity.
Qed.

Lemma trimTrailingGroups_snoc (l : list groupOrAttrs) (goa : groupOrAttrs) :
  group goa = "" -> trimTrailingGroups (l ++ [goa]) = l ++ [goa].
Proof.
  intros Hg. unfold trimTrailingGroups. rewrite rev_app_distr. cbn [rev app].
  cbn [dropLeadingGroups]. destruct (decide (group goa ≠ "")) as [Hne | _]; [contradiction |].
  cbn [rev]. rewrite rev_involutive. reflexivity.
Qed.

Lemma trimTrailingGroups_noGroup (l : list groupOrAttrs) :
  opensNoGroup l -> trimTrailingGroups l = l.
Proof.
  intros Hl. destruct (rev l) as [| goa rest] eqn:Hrev.
  - apply (f_equal (@rev groupOrAttrs)) in Hrev. rewrite rev_involutive in Hrev.
    subst l. reflexivity.
  - apply (f_equal (@rev groupOrAttrs)) in Hrev. rewrite rev_involutive in Hrev.
    cbn [rev] in Hrev. subst l. apply trimTrailingGroups_snoc.
    unfold opensNoGroup in Hl. rewrite Forall_app, Forall_singleton in Hl. apply Hl.
Qed.

Lemma effectiveGoas_noGroup (h : handler) (r : slogRecord) :
  opensNoGroup (goas h) -> effectiveGoas h r = goas h.
Proof.
  intros Hl. unfold effectiveGoas. destruct (decide (NumAttrs r = 0%nat)); [| reflexivity].
  apply trimTrailingGroups_noGroup. exact Hl.
Qed.

Lemma effectiveGoas_snoc (h : handler) (r : slogRecord) (goa : groupOrAttrs) :
  group goa = "" ->
  effectiveGoas (withGroupOrAttrs h goa) r = goas h ++ [goa].
Proof.
  intros Hg. unfold effectiveGoas. cbn [withGroupOrAttrs goas].
  destruct (decide (NumAttrs r = 0%nat)); [| reflexivity].
  apply trimTrailingGroups_snoc. exact Hg.
Qed.

(** X3: a handler derived with groups only gives a record without
    attributes the built-in fields and nothing else, whatever the number of
    groups. *)
Theorem only_groups_no_attrs_is_builtin_fields (h : handler) (r : slogRecord) :
  Forall (fun goa => group goa ≠ "") (goas h) ->
  Attrs r = [] ->
  Handle h r = baseFields h r.
Proof.
  intros Hg Hr.
  assert (Heff : effectiveGoas h r = []).
  { unfold effectiveGoas, NumAttrs. rewrite Hr. cbn [length].
    destruct (decide (0%nat = 0%nat)); [| contradiction].
    apply trimTrailingGroups_all. exact Hg. }
  rewrite Handle_nest, Heff, Hr. reflexivity.
Qed.

Lemma only_groups_no_attrs_is_builtin_fields_witness :
  Handle (WithGroup (WithGroup (WithGroup (TestValues.logger None) "a") "b") "c")
         (TestValues.record LevelInfo "m" [])
  = baseFields (TestValues.logger None) (TestValues.record LevelInfo "m" []).
Proof.
  apply (only_groups_no_attrs_is_builtin_fields
           (WithGroup (WithGroup (WithGroup (TestValues.logger None) "a") "b") "c")
           (TestValues.record LevelInfo "m" [])).
  - repeat constructor; discriminate.
  - reflexivity.
Defined.

(** X4: an attribute batch at the end of the stack, even an empty one as
    [WithAttrs(nil)] or [WithGroup("")] append it, keeps every group of the
    stack: after a group [g] the document of a record without attributes
    then has the empty map under [g]. *)
Theorem empty_batch_keeps_groups (h : handler) (r : slogRecord) (g : string)
    (l : list Attr) :
  effectiveGoas (WithAttrs h l) r = goas h ++ [ {| group := ""; attrs := l |} ]
  /\ WithGroup h "" = WithAttrs h []
  /\ (goas h = [] -> Attrs r = [] -> g ≠ "" ->
      Handle (WithAttrs (WithGroup h g) []) r !! g = Some (OMap ∅)).
Proof.
  split; [apply effectiveGoas_snoc; reflexivity |]. split; [reflexivity |].
  intros Hg Hr Hne. rewrite Handle_nest.
  unfold WithAttrs at 1 2. rewrite effectiveGoas_snoc by reflexivity.
  cbn [WithGroup withGroupOrAttrs goas]. rewrite Hg, Hr. cbn [app nest group].
  destruct (decide (g ≠ "")) as [_ | Hc]; [| contradiction].
  rewrite lookup_insert_eq. cbn [nest group].
  destruct (decide ("" ≠ "")) as [Hc | _]; [contradiction |]. reflexivity.
Qed.

Lemma empty_batch_keeps_groups_witness :
  Handle (WithAttrs (WithGroup (TestValues.logger None) "g") [])
         (TestValues.record LevelInfo "m" []) !! "g"
  = Some (OMap ∅).
Proof.
  apply (proj2 (proj2 (empty_batch_keeps_groups (TestValues.logger None)
                         (TestValues.record LevelInfo "m" []) "g" []))).
  - reflexivity.
  - reflexivity.
  - discriminate.
Defined.

(* ===================================================================== *)
(** ** Groups and the top level of the document                          *)
(* ===================================================================== *)

(** X2: when the first entry of the replayed stack opens a group, the top
    level of the document is the built-in fields plus that one group: every
    attribute of the stack and of the record lands inside the group, and no
    attribute, error-keyed or not, changes a top-level field. *)
Theorem group_first_top_level (h : handler) (r : slogRecord) (goa : groupOrAttrs)
    (rest : list groupOrAttrs) :
  effectiveGoas h r = goa :: rest ->
  group goa ≠ "" ->
  Handle h r
  = <[group goa := OMap (nest h (Attrs r) rest [group goa] ∅)]> (baseFields h r)
  /\ (forall k, k ≠ group goa -> Handle h r !! k = baseFields h r !! k).
Proof.
  intros Heff Hg.
  assert (Hdoc : Handle h r
                 = <[group goa := OMap (nest h (Attrs r) rest [group goa] ∅)]>
                     (baseFields h r)).
  { rewrite Handle_nest, Heff. cbn [scanGoas nest].
    destruct (decide (group goa ≠ "")); [reflexivity | contradiction]. }
  split; [exact Hdoc |].
  intros k Hk. rewrite Hdoc. apply lookup_insert_ne. congruence.
Qed.

Lemma group_first_top_level_witness :
  Handle (WithAttrs (WithGroup (TestValues.logger None) "group")
            [mkAttr ErrorKey (StringValue "stack error")])
         (TestValues.record LevelWarning "warn message"
            [mkAttr ErrorKey (StringValue "grouped error")]) !! MessageKey
  = Some (OString "warn message").
Proof.
  rewrite (proj2 (group_first_top_level
                    (WithAttrs (WithGroup (TestValues.logger None) "group")
                       [mkAttr ErrorKey (StringValue "stack error")])
                    (TestValues.record LevelWarning "warn message"
                       [mkAttr ErrorKey (StringValue "grouped error")])
                    {| group := "group"; attrs := [] |}
                    [ {| group := ""; attrs := [mkAttr ErrorKey (StringValue "stack error")] |} ]
                    eq_refl ltac:(discriminate)) MessageKey ltac:(discriminate)).
  reflexivity.
Defined.

(* ===================================================================== *)
(** ** Splitting a batch                                                  *)
(* ===================================================================== *)

Lemma scanAttrs_app (a1 a2 : list Attr) (out : gmap string OutVal) :
  Forall (fun a => Key a ≠ ErrorKey) a1 \/ Forall (fun a => Key a ≠ ErrorKey) a2 ->
  scanAttrs (a1 ++ a2) out = scanAttrs a2 (scanAttrs a1 out).
Proof.
  intros [H1 | H2].
  - rewrite (scanAttrs_none a1 out H1).
    induction H1 as [| a rest Ha _ IH]; [reflexivity |].
    cbn [app scanAttrs]. rewrite checkAndSetErrorReport_other by exact Ha. exact IH.
  - rewrite (scanAttrs_none a2 _ H2). revert out.
    induction a1 as [| a rest IH]; intros out.
    + cbn [app scanAttrs]. apply scanAttrs_none. exact H2.
    + cbn [app scanAttrs]. destruct (checkAndSetErrorReport a out) as [found out'].
      destruct found; [reflexivity | apply IH].
Qed.

Lemma scanGoas_split (p : list groupOrAttrs) (a1 a2 : list Attr)
    (out : gmap string OutVal) :
  Forall (fun a => Key a ≠ ErrorKey) a1 \/ Forall (fun a => Key a ≠ ErrorKey) a2 ->
  scanGoas (p ++ [ {| group := ""; attrs := a1 |}; {| group := ""; attrs := a2 |} ]) out
  = scanGoas (p ++ [ {| group := ""; attrs := a1 ++ a2 |} ]) out.
Proof.
  intros Hor. revert out. induction p as [| goa rest IH]; intros out.
  - cbn [app scanGoas group attrs].
    destruct (decide ("" ≠ "")) as [Hc | _]; [contradiction |].
    symmetry. apply scanAttrs_app. exact Hor.
  - cbn [app scanGoas]. destruct (decide (group goa ≠ "")); [reflexivity | apply IH].
Qed.

Lemma nest_split (h : handler) (rattrs : list Attr) (p : list groupOrAttrs)
    (a1 a2 : list Attr) (gs : list string) (m : gmap string OutVal) :
  nest h rattrs (p ++ [ {| group := ""; attrs := a1 |}; {| group := ""; attrs := a2 |} ]) gs m
  = nest h rattrs (p ++ [ {| group := ""; attrs := a1 ++ a2 |} ]) gs m.
Proof.
  revert gs m. induction p as [| goa rest IH]; intros gs m.
  - cbn [app nest group].
    destruct (decide ("" ≠ "")) as [Hc | _]; [contradiction |].
    unfold batchInto. cbn [attrs]. rewrite fold_left_app. reflexivity.
  - rewrite <- !app_comm_cons.
    change (nest h rattrs (goa :: ?l) gs m)
      with (if decide (group goa ≠ "")
            then <[group goa := OMap (nest h rattrs l (gs ++ [group goa]) ∅)]> m
            else nest h rattrs l gs (batchInto h gs m goa)).
    destruct (decide (group goa ≠ "")).
    + rewrite IH. reflexivity.
    + apply IH.
Qed.

Lemma fold_left_pointwise {A B : Type} (f g : A -> B -> A) (l : list B) (a : A) :
  (forall x y, f x y = g x y) -> fold_left f l a = fold_left g l a.
Proof.
  intros Hfg. revert a. induction l as [| y rest IH]; intros a; [reflexivity |].
  cbn [fold_left]. rewrite Hfg. apply IH.
Qed.

Lemma nest_same_opts (h1 h2 : handler) (rattrs : list Attr) (l : list groupOrAttrs)
    (gs : list string) (m : gmap string OutVal) :
  opts h1 = opts h2 -> nest h1 rattrs l gs m = nest h2 rattrs l gs m.
Proof.
  intros Ho.
  assert (Hrep : forall gs' a, replaceAttr h1 gs' a = replaceAttr h2 gs' a).
  { intros gs' a. unfold replaceAttr. rewrite Ho. reflexivity. }
  revert gs m. induction l as [| goa rest IH]; intros gs m.
  - cbn [nest]. apply fold_left_pointwise. intros m' a.
    unfold attrInto. rewrite Hrep. reflexivity.
  - cbn [nest]. destruct (decide (group goa ≠ "")).
    + rewrite IH. reflexivity.
    + rewrite IH. f_equal. unfold batchInto. apply fold_left_pointwise.
      intros m' a. cbv zeta. rewrite Hrep. reflexivity.
Qed.

Lemma baseFields_same_opts (h1 h2 : handler) (r : slogRecord) :
  opts h1 = opts h2 -> baseFields h1 r = baseFields h2 r.
Proof. unfold baseFields. intros ->. reflexivity. Qed.

(** X5: attaching attributes in two [WithAttrs] calls or in one gives the
    same document, provided the error key does not occur in both
    batches. *)
Theorem WithAttrs_split (h : handler) (r : slogRecord) (a1 a2 : list Attr) :
  Forall (fun a => Key a ≠ ErrorKey) a1 \/ Forall (fun a => Key a ≠ ErrorKey) a2 ->
  Handle (WithAttrs (WithAttrs h a1) a2) r = Handle (WithAttrs h (a1 ++ a2)) r.
Proof.
  intros Hor.
  assert (Heff1 : effectiveGoas (WithAttrs (WithAttrs h a1) a2) r
                  = goas h ++ [ {| group := ""; attrs := a1 |};
                                {| group := ""; attrs := a2 |} ]).
  { unfold WithAttrs at 1. rewrite effectiveGoas_snoc by reflexivity.
    cbn [WithAttrs withGroupOrAttrs goas]. rewrite <- app_assoc. reflexivity. }
  assert (Heff2 : effectiveGoas (WithAttrs h (a1 ++ a2)) r
                  = goas h ++ [ {| group := ""; attrs := a1 ++ a2 |} ]).
  { unfold WithAttrs. apply effectiveGoas_snoc. reflexivity. }
  rewrite !Handle_nest, Heff1, Heff2.
  rewrite scanGoas_split by exact Hor. rewrite nest_split.
  rewrite (baseFields_same_opts (WithAttrs (WithAttrs h a1) a2) (WithAttrs h (a1 ++ a2)))
    by reflexivity.
  apply nest_same_opts. reflexivity.
Qed.

Lemma WithAttrs_split_witness :
  Handle (WithAttrs (WithAttrs (WithGroup (TestValues.logger None) "g")
                       [mkAttr "a" (Int64Value 1)])
            [mkAttr ErrorKey (StringValue "e"); mkAttr "a" (Int64Value 2)])
         (TestValues.record LevelInfo "m" [])
  = Handle (WithAttrs (WithGroup (TestValues.logger None) "g")
              ([mkAttr "a" (Int64Value 1)]
                 ++ [mkAttr ErrorKey (StringValue "e"); mkAttr "a" (Int64Value 2)]))
           (TestValues.record LevelInfo "m" []).
Proof.
  apply (WithAttrs_split (WithGroup (TestValues.logger None) "g")
           (TestValues.record LevelInfo "m" [])
           [mkAttr "a" (Int64Value 1)]
           [mkAttr ErrorKey (StringValue "e"); mkAttr "a" (Int64Value 2)]).
  left. repeat constructor. discriminate.
Defined.

(* ===================================================================== *)
(** ** Keys of the document                                               *)
(* ===================================================================== *)

Lemma checkAndSetErrorReport_keeps (a : Attr) (out : gmap string OutVal) (k : string) :
  is_Some (out !! k) -> is_Some (snd (checkAndSetErrorReport a out) !! k).
Proof.
  intros Hk. unfold checkAndSetErrorReport.
  destruct (decide (Key a ≠ ErrorKey)); [exact Hk |].
  destruct (assertErrorValue (Any (Val a))) as [msg loc]. cbn [snd].
  destruct loc, (asLogValuer (Any (Val a))), (asError (Any (Val a)));
    rewrite !lookup_insert_is_Some'; auto 10.
Qed.

Lemma scanAttrs_keeps (l : list Attr) (out : gmap string OutVal) (k : string) :
  is_Some (out !! k) -> is_Some (scanAttrs l out !! k).
Proof.
  revert out. induction l as [| a rest IH]; intros out Hk; [exact Hk |].
  cbn [scanAttrs]. pose proof (checkAndSetErrorReport_keeps a out k Hk) as Hk'.
  destruct (checkAndSetErrorReport a out) as [found out']. cbn [snd] in Hk'.
  destruct found; [exact Hk' | apply IH; exact Hk'].
Qed.

Lemma scanGoas_keeps (l : list groupOrAttrs) (out : gmap string OutVal) (k : string) :
  is_Some (out !! k) -> is_Some (scanGoas l out !! k).
Proof.
  revert out. induction l as [| goa rest IH]; intros out Hk; [exact Hk |].
  cbn [scanGoas]. destruct (decide (group goa ≠ "")); [exact Hk |].
  apply IH, scanAttrs_keeps, Hk.
Qed.

Lemma fold_keeps {A : Type} (f : gmap string OutVal -> A -> gmap string OutVal)
    (l : list A) (m : gmap string OutVal) (k : string) :
  (forall m' x, is_Some (m' !! k) -> is_Some (f m' x !! k)) ->
  is_Some (m !! k) -> is_Some (fold_left f l m !! k).
Proof.
  intros Hf. revert m. induction l as [| x rest IH]; intros m Hk; [exact Hk |].
  cbn [fold_left]. apply IH, Hf, Hk.
Qed.

Lemma nest_keeps (h : handler) (rattrs : list Attr) (l : list groupOrAttrs)
    (gs : list string) (m : gmap string OutVal) (k : string) :
  is_Some (m !! k) -> is_Some (nest h rattrs l gs m !! k).
Proof.
  revert gs m. induction l as [| goa rest IH]; intros gs m Hk.
  - cbn [nest]. apply fold_keeps; [| exact Hk].
    intros m' a Hm'. unfold attrInto. rewrite lookup_insert_is_Some'. right.
    destruct (decide (length gs = 0%nat)); [| exact Hm'].
    apply checkAndSetErrorReport_keeps. exact Hm'.
  - cbn [nest]. destruct (decide (group goa ≠ "")).
    + rewrite lookup_insert_is_Some'. right. exact Hk.
    + apply IH. unfold batchInto. apply fold_keeps; [| exact Hk].
      intros m' a Hm'. rewrite lookup_insert_is_Some'. right. exact Hm'.
Qed.

(** X6: [Handle] never removes a key from the top level: every key of the
    built-in fields is a key of the document (its value may have been
    overwritten), so every document has a severity. *)
Theorem Handle_keeps_builtin_keys (h : handler) (r : slogRecord) :
  is_Some (Handle h r !! SeverityKey)
  /\ (forall k, is_Some (baseFields h r !! k) -> is_Some (Handle h r !! k)).
Proof.
  assert (Hall : forall k, is_Some (baseFields h r !! k) -> is_Some (Handle h r !! k)).
  { intros k Hk. rewrite Handle_nest. apply nest_keeps, scanGoas_keeps, Hk. }
  split; [| exact Hall].
  apply Hall. rewrite baseFields_lookup.
  destruct (decide (SeverityKey = SeverityKey)); [eexists; reflexivity | contradiction].
Qed.

Lemma Handle_keeps_builtin_keys_witness :
  is_Some (Handle (WithGroup (TestValues.logger None) "time")
             (TestValues.record LevelInfo "m" [mkAttr TimeKey (Int64Value 0)]) !! TimeKey).
Proof.
  apply (proj2 (Handle_keeps_builtin_keys (WithGroup (TestValues.logger None) "time")
                  (TestValues.record LevelInfo "m" [mkAttr TimeKey (Int64Value 0)]))).
  eexists. reflexivity.
Defined.

Lemma scanGoas_none (l : list groupOrAttrs) (out : gmap string OutVal) :
  Forall (fun goa => Forall (fun a => Key a ≠ ErrorKey) (attrs goa)) l ->
  scanGoas l out = out.
Proof.
  intros Hl. induction Hl as [| goa rest Hgoa _ IH]; [reflexivity |].
  cbn [scanGoas]. destruct (decide (group goa ≠ "")); [reflexivity |].
  rewrite scanAttrs_none by exact Hgoa. exact IH.
Qed.

Lemma fold_batchStep_lookup (h : handler) (l : list groupOrAttrs)
    (out : gmap string OutVal) (k : string) :
  Forall (fun goa => Forall (fun a => Key (replaceAttr h [] a) ≠ k) (attrs goa)) l ->
  fold_left (batchStep h) l out !! k = out !! k.
Proof.
  intros Hl. revert out. induction Hl as [| goa rest Hgoa _ IH]; intros out; [reflexivity |].
  cbn [fold_left]. rewrite IH. unfold batchStep. clear IH. revert out.
  induction Hgoa as [| a as' Ha _ IHa]; intros out; [reflexivity |].
  cbn [fold_left]. rewrite IHa. apply lookup_insert_ne. exact Ha.
Qed.

(** X7: without an error attribute there is no error report.  On a stack
    that opens no group, if no stack attribute is keyed [error], and no
    attribute (after the hook) is keyed as a field an error report writes,
    then the document carries the record's own message and neither the type
    marker nor a report location. *)
Theorem no_error_attribute_no_report (h : handler) (r : slogRecord) :
  opensNoGroup (goas h) ->
  Forall (fun goa =>
            Forall (fun a => Key a ≠ ErrorKey
                             /\ Key (replaceAttr h [] a) ∉ errorReportKeys) (attrs goa))
         (goas h) ->
  Forall (fun a => Key (replaceAttr h [] a) ∉ errorReportKeys) (Attrs r) ->
  Handle h r !! MessageKey = baseFields h r !! MessageKey
  /\ Handle h r !! ErrorReportTypeKey = None
  /\ Handle h r !! ReportLocationKey = None
  /\ Handle h r !! ErrorKey = None.
Proof.
  intros Hg Hstack Hrec.
  assert (Hk : forall k, k ∈ errorReportKeys -> Handle h r !! k = baseFields h r !! k).
  { intros k Hin. rewrite Handle_flat by (rewrite effectiveGoas_noGroup; assumption).
    unfold flatOut. rewrite effectiveGoas_noGroup by exact Hg.
    rewrite fold_attrStep_lookup.
    - rewrite fold_batchStep_lookup.
      + rewrite scanGoas_none; [reflexivity |].
        eapply Forall_impl; [exact Hstack |]. intros goa Hgoa. cbv beta in Hgoa |- *.
        eapply Forall_impl; [exact Hgoa |]. intros a [Ha _]. exact Ha.
      + eapply Forall_impl; [exact Hstack |]. intros goa Hgoa. cbv beta in Hgoa |- *.
        eapply Forall_impl; [exact Hgoa |]. intros a [_ Ha] Heq. cbv beta in Ha.
        apply Ha. rewrite Heq. exact Hin.
    - eapply Forall_impl; [exact Hrec |]. intros a Ha. cbv beta in Ha |- *.
      split.
      + intros Heq. apply Ha. rewrite Heq. exact Hin.
      + intros Heq. exfalso. apply Ha. rewrite Heq.
        unfold errorReportKeys. rewrite !elem_of_cons. tauto. }
  unfold errorReportKeys in Hk.
  split; [apply Hk; rewrite !elem_of_cons; tauto |].
  split; [| split].
  - rewrite Hk by (rewrite !elem_of_cons; tauto). rewrite baseFields_lookup.
    unfold ErrorReportTypeKey, SeverityKey, MessageKey, SourceLocationKey, TimeKey.
    repeat case_decide; try discriminate. reflexivity.
  - rewrite Hk by (rewrite !elem_of_cons; tauto). rewrite baseFields_lookup.
    unfold ReportLocationKey, SeverityKey, MessageKey, SourceLocationKey, TimeKey.
    repeat case_decide; try discriminate. reflexivity.
  - rewrite Hk by (rewrite !elem_of_cons; tauto). rewrite baseFields_lookup.
    unfold ErrorKey, SeverityKey, MessageKey, SourceLocationKey, TimeKey.
    repeat case_decide; try discriminate. reflexivity.
Qed.

Lemma no_error_attribute_no_report_witness :
  Handle (WithAttrs (TestValues.logger (Some TestValues.errToErrorKey))
            [mkAttr "user" (StringValue "u")])
         (TestValues.record LevelInfo "m" [mkAttr "n" (Int64Value 1)]) !! MessageKey
  = Some (OString "m").
Proof.
  assert (Hdoc := no_error_attribute_no_report
                    (WithAttrs (TestValues.logger (Some TestValues.errToErrorKey))
                       [mkAttr "user" (StringValue "u")])
                    (TestValues.record LevelInfo "m" [mkAttr "n" (Int64Value 1)])).
  rewrite (proj1 (Hdoc ltac:(repeat constructor)
                       ltac:(apply (bool_decide_unpack _); vm_compute; exact I)
                       ltac:(apply (bool_decide_unpack _); vm_compute; exact I))).
  reflexivity.
Defined.

(** X8: [checkAndSetErrorReport] fires exactly on the error key.  For any
    other key it returns false and the map unchanged; when it fires it
    writes no key but the four report keys, removes none, and for a value
    without a location leaves an earlier report location where it is. *)
Theorem checkAndSetErrorReport_footprint (a : Attr) (out : gmap string OutVal) :
  (Key a ≠ ErrorKey -> checkAndSetErrorReport a out = (false, out))
  /\ (Key a = ErrorKey ->
      fst (checkAndSetErrorReport a out) = true
      /\ (forall k, k ∉ errorReportKeys ->
                    snd (checkAndSetErrorReport a out) !! k = out !! k)
      /\ (snd (assertErrorValue (Any (Val a))) = None ->
          snd (checkAndSetErrorReport a out) !! ReportLocationKey
          = out !! ReportLocationKey))
  /\ (forall k, is_Some (out !! k) -> is_Some (snd (checkAndSetErrorReport a out) !! k)).
Proof.
  split; [apply checkAndSetErrorReport_other |]. split.
  - intros Hk.
    destruct (checkAndSetErrorReport_fires a out Hk) as (Hf & _ & _ & _ & Hl & Hrest).
    split; [exact Hf |]. split; [exact Hrest |].
    intros Hnone. rewrite Hl, Hnone. reflexivity.
  - intros k. apply checkAndSetErrorReport_keeps.
Qed.

Lemma checkAndSetErrorReport_footprint_witness :
  snd (checkAndSetErrorReport (mkAttr ErrorKey (StringValue "second"))
         (snd (checkAndSetErrorReport
                 (mkAttr ErrorKey (AnyValue TestValues.mockReportLocationError)) ∅)))
    !! ReportLocationKey
  = Some (OLocation TestValues.mockReportLocation).
Proof.
  rewrite (proj2 (proj2 (proj1 (proj2
             (checkAndSetErrorReport_footprint (mkAttr ErrorKey (StringValue "second"))
                (snd (checkAndSetErrorReport
                        (mkAttr ErrorKey (AnyValue TestValues.mockReportLocationError))
                        ∅)))) eq_refl)) eq_refl).
  reflexivity.
Defined.

(* ===================================================================== *)
(** ** More on assertErrorValue and extractValue                          *)
(* ===================================================================== *)

(** X9: the message of an error report is empty only when the value is
    the empty string or an error whose text is empty; a trace, when it is
    used, and the diagnostic for unsupported values are never empty. *)
Theorem assertErrorValue_empty_message (value : GoAny) :
  fst (assertErrorValue value) = "" ->
  value = GString "" \/ asError value = Some "".
Proof.
  unfold assertErrorValue.
  destruct (decide (_ ≠ "")) as [Hne | _]; [intros Hfst; cbn [fst] in Hfst; contradiction |].
  destruct (asError value) as [e |] eqn:He.
  - cbn [fst]. intros ->. right. reflexivity.
  - destruct value; cbn [fst]; try discriminate.
    intros ->. left. reflexivity.
Qed.

Lemma assertErrorValue_empty_message_witness :
  GString "" = GString "" \/ asError (GString "") = Some "".
Proof. apply (assertErrorValue_empty_message (GString "")). reflexivity. Defined.

Lemma extractValue_group_fold (l : list Attr) :
  extractValue (GroupValue l)
  = OMap (fold_left (fun m a => <[Key a := extractValue (Val a)]> m) l ∅).
Proof.
  cbn [extractValue]. f_equal. generalize (∅ : gmap string OutVal).
  induction l as [| [k w] rest IH]; intros m; [reflexivity |].
  cbn [fold_left Key Val]. rewrite <- IH. reflexivity.
Qed.

Lemma extractGroup_lookup (l : list Attr) (k : string) :
  forall (m : gmap string OutVal) (acc : option Value),
    m !! k = extractValue <$> acc ->
    fold_left (fun m a => <[Key a := extractValue (Val a)]> m) l m !! k
    = extractValue <$>
        fold_left (fun acc a => if decide (Key a = k) then Some (Val a) else acc) l acc.
Proof.
  induction l as [| a rest IH]; intros m acc Hm; [exact Hm |].
  cbn [fold_left]. apply IH. destruct (decide (Key a = k)) as [<- | Hne].
  - apply lookup_insert_eq.
  - rewrite lookup_insert_ne by exact Hne. exact Hm.
Qed.

(** X10: a group value becomes one map in which, for every key, the last
    attribute of the group with that key wins; a key no attribute has is
    absent. *)
Theorem extractValue_group_last_wins (l : list Attr) :
  exists m : gmap string OutVal,
    extractValue (GroupValue l) = OMap m
    /\ forall k, m !! k = extractValue <$> lastValue k l.
Proof.
  eexists. split; [apply extractValue_group_fold |].
  intros k. unfold lastValue. apply extractGroup_lookup. apply lookup_empty.
Qed.

(** X11: what [extractValue] returns is flattened at the top: never a bare
    list of attributes, never a value that still has a [LogValue] method,
    and a user-defined value is returned as it is only when it is a
    marshaler or is neither an error nor a Stringer. *)
Theorem extractValue_flat : forall (v : Value) (g : GoAny),
  extractValue v = ORaw g ->
  (forall l, g ≠ GAttrs l)
  /\ (forall o, g = GDyn o ->
        mLogValue o = None
        /\ (mMarshal o = true \/ (mError o = None /\ mString o = None))).
Proof.
  fix IH 1. intros v g.
  destruct v as [s | n | b | l | lv | src | o].
  1-3, 5-6: intros [= <-]; split; [discriminate | intros o; discriminate].
  - discriminate.
  - destruct o as [t rp lvo marsh err str st rl].
    destruct lvo as [w |].
    + cbn [extractValue]. intros Hw. exact (IH w g Hw).
    + cbn [extractValue]. destruct marsh.
      * intros [= <-]. split; [discriminate |]. intros o [= <-]. cbn.
        split; [reflexivity | left; reflexivity].
      * destruct err as [e |];
          [intros [= <-]; split; [discriminate | intros o; discriminate] |].
        destruct str as [s |];
          [intros [= <-]; split; [discriminate | intros o; discriminate] |].
        intros [= <-]. split; [discriminate |]. intros o [= <-]. cbn.
        split; [reflexivity | right; split; reflexivity].
Qed.

Lemma extractValue_flat_witness :
  mLogValue (mkDyn "main.wire" "{}" None true (Some "e") None None None) = None
  /\ (mMarshal (mkDyn "main.wire" "{}" None true (Some "e") None None None) = true
      \/ (mError (mkDyn "main.wire" "{}" None true (Some "e") None None None) = None
          /\ mString (mkDyn "main.wire" "{}" None true (Some "e") None None None) = None)).
Proof.
  apply (proj2 (extractValue_flat
                  (AnyValue (mkDyn "main.wrapper" "{}"
                               (Some (AnyValue (mkDyn "main.wire" "{}" None true (Some "e")
                                                  None None None)))
                               false (Some "outer") None None None))
                  (GDyn (mkDyn "main.wire" "{}" None true (Some "e") None None None))
                  eq_refl)
               (mkDyn "main.wire" "{}" None true (Some "e") None None None) eq_refl).
Defined.

(* ===================================================================== *)
(** ** ReportLocation                                                     *)
(* ===================================================================== *)

(** X12: the logged form of a report location is a group with exactly the
    keys [filePath], [lineNumber] and [functionName], holding the three
    fields, so that the location can be read back from what
    [extractValue] makes of it: two locations with the same logged form
    are the same. *)
Theorem ReportLocation_LogValue_faithful :
  (forall r : ReportLocation,
      exists m : gmap string OutVal,
        extractValue (ReportLocation_LogValue r) = OMap m
        /\ m !! FilePathKey = Some (OString (FilePath r))
        /\ m !! LineNumberKey = Some (ORaw (GInt64 (LineNumber r)))
        /\ m !! FunctionNameKey = Some (OString (FunctionName r))
        /\ (forall k, k ∉ [FilePathKey; LineNumberKey; FunctionNameKey] -> m !! k = None))
  /\ (forall r1 r2 : ReportLocation,
         extractValue (ReportLocation_LogValue r1) = extractValue (ReportLocation_LogValue r2) ->
         r1 = r2).
Proof.
  assert (Hshape : forall r : ReportLocation,
             extractValue (ReportLocation_LogValue r)
             = OMap (<[FunctionNameKey := OString (FunctionName r)]>
                       (<[LineNumberKey := ORaw (GInt64 (LineNumber r))]>
                          (<[FilePathKey := OString (FilePath r)]> ∅)))).
  { intros r. reflexivity. }
  split.
  - intros r. eexists. split; [apply Hshape |].
    unfold FilePathKey, LineNumberKey, FunctionNameKey.
    split; [| split; [| split]].
    + rewrite lookup_insert_ne by discriminate. rewrite lookup_insert_ne by discriminate.
      apply lookup_insert_eq.
    + rewrite lookup_insert_ne by discriminate. apply lookup_insert_eq.
    + apply lookup_insert_eq.
    + intros k Hk. rewrite !not_elem_of_cons in Hk. destruct Hk as (H1 & H2 & H3 & _).
      rewrite !lookup_insert_ne by congruence. apply lookup_empty.
  - intros [f1 n1 g1] [f2 n2 g2] Heq. rewrite !Hshape in Heq.
    cbn [FilePath LineNumber FunctionName] in Heq.
    pose proof (f_equal (fun v => match v with
                                  | OMap m => m !! FilePathKey
                                  | _ => None
                                  end) Heq) as Hf.
    pose proof (f_equal (fun v => match v with
                                  | OMap m => m !! LineNumberKey
                                  | _ => None
                                  end) Heq) as Hn.
    pose proof (f_equal (fun v => match v with
                                  | OMap m => m !! FunctionNameKey
                                  | _ => None
                                  end) Heq) as Hg.
    cbv beta iota in Hf, Hn, Hg.
    unfold FilePathKey, LineNumberKey, FunctionNameKey in Hf, Hn, Hg.
    rewrite !(lookup_insert_ne _ "functionName" "filePath") in Hf by discriminate.
    rewrite !(lookup_insert_ne _ "lineNumber" "filePath") in Hf by discriminate.
    rewrite !lookup_insert_eq in Hf.
    rewrite !(lookup_insert_ne _ "functionName" "lineNumber") in Hn by discriminate.
    rewrite !lookup_insert_eq in Hn.
    rewrite !lookup_insert_eq in Hg.
    injection Hf as ->. injection Hn as ->. injection Hg as ->. reflexivity.
Qed.

(* ===================================================================== *)
(** ** More on replace.go                                                 *)
(* ===================================================================== *)

Lemma ReplaceAttr_unchanged (groups : list string) (a : Attr) :
  groups ≠ []
  \/ Key a ∉ [Replace.slogLevelKey; Replace.slogSourceKey; Replace.slogMessageKey] ->
  Replace.ReplaceAttr groups a = a.
Proof.
  intros Hor. unfold Replace.ReplaceAttr.
  destruct (decide (Key a = Replace.slogTimeKey ∧ length groups = 0%nat)); [reflexivity |].
  destruct Hor as [Hg | Hk].
  - assert (Hlen : length groups ≠ 0%nat) by (destruct groups; [contradiction | discriminate]).
    repeat (destruct (decide _) as [[_ Hc] | _]; [contradiction |]). reflexivity.
  - rewrite !not_elem_of_cons in Hk. destruct Hk as (H1 & H2 & H3 & _).
    repeat (destruct (decide _) as [[Hc _] | _]; [contradiction |]). reflexivity.
Qed.

(** X13: [ReplaceAttr] leaves alone every attribute inside a group and, at
    depth zero, every attribute whose key is not [level], [source] or
    [msg] (the time attribute included). *)
Theorem ReplaceAttr_passthrough (groups : list string) (a : Attr) :
  groups ≠ []
  \/ Key a ∉ [Replace.slogLevelKey; Replace.slogSourceKey; Replace.slogMessageKey] ->
  Replace.ReplaceAttr groups a = a
  /\ Key (Replace.ReplaceAttr groups a) = Key a
  /\ Val (Replace.ReplaceAttr groups a) = Val a.
Proof.
  intros Hor. rewrite (ReplaceAttr_unchanged groups a Hor).
  split; [reflexivity |]. split; reflexivity.
Qed.

Lemma ReplaceAttr_passthrough_witness :
  Replace.ReplaceAttr ["g"] (mkAttr "level" (LevelValue slogLevelInfo))
  = mkAttr "level" (LevelValue slogLevelInfo)
  /\ Replace.ReplaceAttr [] (mkAttr "time" (Int64Value 5)) = mkAttr "time" (Int64Value 5).
Proof.
  split.
  - apply (proj1 (ReplaceAttr_passthrough ["g"] (mkAttr "level" (LevelValue slogLevelInfo))
                    ltac:(left; discriminate))).
  - apply (proj1 (ReplaceAttr_passthrough [] (mkAttr "time" (Int64Value 5))
                    ltac:(right; apply (bool_decide_unpack _); vm_compute; exact I))).
Defined.

Lemma ReplaceAttr_result_key (a : Attr) :
  Key (Replace.ReplaceAttr [] a)
    ∉ [Replace.slogLevelKey; Replace.slogMessageKey].
Proof.
  unfold Replace.ReplaceAttr.
  rewrite !not_elem_of_cons.
  destruct (decide (Key a = Replace.slogTimeKey ∧ _)) as [[Hk _] | Ht].
  { rewrite Hk. repeat split; try discriminate. apply not_elem_of_nil. }
  destruct (decide (Key a = Replace.slogLevelKey ∧ _)) as [[Hk _] | Hl].
  { destruct (Any (Val a)); repeat (destruct (_ =? _)); cbn [Key Replace.slogString];
      repeat split; try discriminate; apply not_elem_of_nil. }
  destruct (decide (Key a = Replace.slogSourceKey ∧ _)) as [[Hk _] | Hs].
  { destruct (Any (Val a)) as [| | | | | [src |] |]; cbn [Key]; rewrite ?Hk;
      repeat split; try discriminate; apply not_elem_of_nil. }
  destruct (decide (Key a = Replace.slogMessageKey ∧ _)) as [[Hk _] | Hm].
  { cbn [Key Replace.slogString]. repeat split; try discriminate. apply not_elem_of_nil. }
  repeat split; try apply not_elem_of_nil.
  - intros Hk. apply Hl. split; [exact Hk | reflexivity].
  - intros Hk. apply Hm. split; [exact Hk | reflexivity].
Qed.

(** X14: applying [ReplaceAttr] twice is the same as applying it once:
    what it produces it leaves alone. *)
Theorem ReplaceAttr_idempotent (groups : list string) (a : Attr) :
  Replace.ReplaceAttr groups (Replace.ReplaceAttr groups a)
  = Replace.ReplaceAttr groups a.
Proof.
  destruct groups as [| g gs].
  - destruct (decide (Key (Replace.ReplaceAttr [] a) = Replace.slogSourceKey)) as [Hs | Hs].
    + (* the key is still [source]: the attribute was not changed *)
      assert (Hsame : Replace.ReplaceAttr [] a = a).
      { revert Hs. unfold Replace.ReplaceAttr.
        destruct (decide (Key a = Replace.slogTimeKey ∧ _)); [reflexivity |].
        destruct (decide (Key a = Replace.slogLevelKey ∧ _)).
        { destruct (Any (Val a)); repeat (destruct (_ =? _)); discriminate. }
        destruct (decide (Key a = Replace.slogSourceKey ∧ _)).
        { destruct (Any (Val a)) as [| | | | | [src |] |]; try reflexivity. discriminate. }
        destruct (decide (Key a = Replace.slogMessageKey ∧ _)); [discriminate | reflexivity]. }
      rewrite Hsame. exact Hsame.
    + apply ReplaceAttr_unchanged. right.
      pose proof (ReplaceAttr_result_key a) as Hk.
      rewrite !not_elem_of_cons in Hk. destruct Hk as (H1 & H2 & _).
      intros Hin. rewrite !elem_of_cons, elem_of_nil in Hin. tauto.
  - rewrite !ReplaceAttr_unchanged by (left; discriminate). reflexivity.
Qed.

(** X15: at depth zero [ReplaceAttr] never hands back the keys [level] or
    [msg]: a level attribute becomes the severity attribute with one of
    the five labels of the file as a string, a message attribute becomes
    the [message] attribute holding the string form of its value, and a
    source attribute holding a non-nil source is re-keyed with its value
    kept. *)
Theorem ReplaceAttr_gcp_keys (a : Attr) :
  (Key (Replace.ReplaceAttr [] a) ∉ [Replace.slogLevelKey; Replace.slogMessageKey])
  /\ (Key a = Replace.slogLevelKey ->
      exists label,
        Replace.ReplaceAttr [] a = mkAttr Replace.SeverityKey (StringValue label)
        /\ label ∈ [Replace.DebugSeverity; Replace.InfoSeverity; Replace.WarningSeverity;
                    Replace.ErrorSeverity; Replace.DefaultSeverity])
  /\ (Key a = Replace.slogMessageKey ->
      Replace.ReplaceAttr [] a
      = mkAttr Replace.MessageKey (StringValue (ValueString (Val a))))
  /\ (forall src, Key a = Replace.slogSourceKey -> Val a = SourceValue (Some src) ->
        Replace.ReplaceAttr [] a
        = mkAttr Replace.SourceLocationKey (SourceValue (Some src))).
Proof.
  split; [apply ReplaceAttr_result_key |]. split; [| split].
  - intros Hk. unfold Replace.ReplaceAttr. rewrite Hk.
    destruct (decide (Replace.slogLevelKey = Replace.slogTimeKey ∧ _)) as [[Hc _] | _];
      [discriminate |].
    destruct (decide (Replace.slogLevelKey = Replace.slogLevelKey ∧ _)) as [_ | Hc];
      [| exfalso; apply Hc; split; reflexivity].
    destruct (Any (Val a)); repeat (destruct (_ =? _));
      eexists; (split; [reflexivity |]); rewrite !elem_of_cons; tauto.
  - intros Hk. unfold Replace.ReplaceAttr. rewrite Hk.
    repeat (destruct (decide _) as [[Hc _] | _]; [discriminate |]).
    destruct (decide _) as [_ | Hc]; [reflexivity |].
    exfalso. apply Hc. split; reflexivity.
  - intros src Hk Hv. unfold Replace.ReplaceAttr. rewrite Hk, Hv.
    repeat (destruct (decide _) as [[Hc _] | _]; [discriminate |]).
    destruct (decide _) as [_ | Hc]; [reflexivity |].
    exfalso. apply Hc. split; reflexivity.
Qed.

Lemma ReplaceAttr_gcp_keys_witness :
  Replace.ReplaceAttr [] (mkAttr "msg" (Int64Value 7)) = mkAttr "message" (StringValue "7")
  /\ Replace.ReplaceAttr [] (mkAttr "source" (SourceValue (Some (mkSource "main.f" "main.go" 3))))
     = mkAttr "logging.googleapis.com/sourceLocation"
         (SourceValue (Some (mkSource "main.f" "main.go" 3))).
Proof.
  split.
  - apply (proj1 (proj2 (proj2 (ReplaceAttr_gcp_keys (mkAttr "msg" (Int64Value 7))))) eq_refl).
  - apply (proj2 (proj2 (proj2 (ReplaceAttr_gcp_keys
               (mkAttr "source" (SourceValue (Some (mkSource "main.f" "main.go" 3)))))))
             (mkSource "main.f" "main.go" 3) eq_refl eq_refl).
Defined.

(* ===================================================================== *)
(** ** Which records a handler accepts                                    *)
(* ===================================================================== *)

Lemma derive_opts (h : handler) (steps : list groupOrAttrs) :
  opts (derive h steps) = opts h.
Proof.
  unfold derive. revert h. induction steps as [| goa rest IH]; intros h; [reflexivity |].
  cbn [fold_left]. rewrite IH. reflexivity.
Qed.

Lemma derive_goas (h : handler) (steps : list groupOrAttrs) :
  goas (derive h steps) = goas h ++ steps.
Proof.
  unfold derive. revert h. induction steps as [| goa rest IH]; intros h.
  - cbn [fold_left]. rewrite app_nil_r. reflexivity.
  - cbn [fold_left]. rewrite IH. cbn [withGroupOrAttrs goas].
    rewrite <- app_assoc. reflexivity.
Qed.

Lemma NewErrorReportingHandler_level (o : option HandlerOptions) :
  OptLevel (opts (NewErrorReportingHandler o)) = Some (configuredLevel o).
Proof.
  unfold NewErrorReportingHandler, configuredLevel.
  destruct o as [[src [lvl |] hook] |]; reflexivity.
Qed.

(** X16: a handler made by [NewErrorReportingHandler], and every handler
    derived from it by [WithAttrs] and [WithGroup], accepts exactly the
    levels from the configured one upwards; the configured level is the
    one of the options, and info when the options or their level are
    nil.  Deriving keeps the options and appends the entries in order. *)
Theorem Enabled_threshold (o : option HandlerOptions) (steps : list groupOrAttrs)
    (l : Level) :
  (Enabled (derive (NewErrorReportingHandler o) steps) l = true <-> configuredLevel o <= l)
  /\ goas (derive (NewErrorReportingHandler o) steps) = steps
  /\ ReplaceAttrHook (opts (derive (NewErrorReportingHandler o) steps))
     = match o with Some x => ReplaceAttrHook x | None => None end
  /\ AddSource (opts (derive (NewErrorReportingHandler o) steps))
     = match o with Some x => AddSource x | None => false end.
Proof.
  split; [| split; [| split]].
  - unfold Enabled. rewrite derive_opts, NewErrorReportingHandler_level.
    apply Z.leb_le.
  - rewrite derive_goas. reflexivity.
  - rewrite derive_opts. destruct o as [[src [lvl |] hook] |]; reflexivity.
  - rewrite derive_opts. destruct o as [[src [lvl |] hook] |]; reflexivity.
Qed.

(** X17: a record that a handler accepts never gets the DEFAULT severity
    when the handler's level is debug or above, and its severity ranks at
    least as high as the severity of the handler's level (INFO for the
    default options). *)
Theorem accepted_record_severity (h : handler) (r : slogRecord) (min : Level) :
  OptLevel (opts h) = Some min ->
  LevelDebug <= min ->
  Enabled h (RLevel r) = true ->
  exists label,
    baseFields h r !! SeverityKey = Some (OString label)
    /\ label ≠ DefaultSeverity
    /\ severityRank (severityFromLevel min) <= severityRank label.
Proof.
  intros Hmin Hdebug Hen. unfold Enabled in Hen. rewrite Hmin in Hen.
  apply Z.leb_le in Hen.
  exists (severityFromLevel (RLevel r)). split; [| split].
  - rewrite baseFields_lookup.
    destruct (decide (SeverityKey = SeverityKey)); [reflexivity | contradiction].
  - revert Hdebug Hen. generalize (RLevel r) as l. intros l.
    unfold LevelDebug, slogLevelDebug. intros Hdebug Hen.
    level_cases l; try discriminate. lia.
  - apply severityFromLevel_rank_mono. exact Hen.
Qed.

Lemma accepted_record_severity_witness :
  exists label,
    baseFields (NewErrorReportingHandler None) (TestValues.record LevelNotice "m" [])
      !! SeverityKey = Some (OString label)
    /\ label ≠ DefaultSeverity
    /\ severityRank (severityFromLevel slogLevelInfo) <= severityRank label.
Proof.
  apply (accepted_record_severity (NewErrorReportingHandler None)
           (TestValues.record LevelNotice "m" []) slogLevelInfo).
  - reflexivity.
  - vm_compute. discriminate.
  - reflexivity.
Defined.

(** X18: each label covers exactly the levels from its threshold up to
    the next one: DEFAULT below debug, DEBUG on [-4, 0), INFO on [0, 2),
    NOTICE on [2, 4), WARNING on [4, 8), ERROR on [8, 10), CRITICAL on
    [10, 12), ALERT on [12, 14) and EMERGENCY from 14 on. *)
Theorem severityFromLevel_intervals (l : Level) :
  (severityFromLevel l = DefaultSeverity <-> l < LevelDebug)
  /\ (severityFromLevel l = DebugSeverity <-> LevelDebug <= l < LevelInfo)
  /\ (severityFromLevel l = InfoSeverity <-> LevelInfo <= l < LevelNotice)
  /\ (severityFromLevel l = NoticeSeverity <-> LevelNotice <= l < LevelWarning)
  /\ (severityFromLevel l = WarningSeverity <-> LevelWarning <= l < LevelError)
  /\ (severityFromLevel l = ErrorSeverity <-> LevelError <= l < LevelCritical)
  /\ (severityFromLevel l = CriticalSeverity <-> LevelCritical <= l < LevelAlert)
  /\ (severityFromLevel l = AlertSeverity <-> LevelAlert <= l < LevelEmergency)
  /\ (severityFromLevel l = EmergencySeverity <-> LevelEmergency <= l).
Proof.
  level_cases l;
    repeat match goal with |- _ /\ _ => split end;
    (split; [intros Heq; try discriminate Heq; lia | intros Hrange; try reflexivity; lia]).
Qed.

(* ===================================================================== *)
(** ** Nested groups                                                      *)
(* ===================================================================== *)

Lemma nest_openers (h : handler) (rattrs : list Attr) (names : list string) :
  Forall (fun g => g ≠ "") names ->
  forall gs,
    nest h rattrs (map opener names) gs ∅
    = wrap names (fold_left (attrInto h (gs ++ names)) rattrs ∅).
Proof.
  intros Hnames. induction Hnames as [| g rest Hg _ IH]; intros gs.
  - cbn [map nest wrap]. rewrite app_nil_r. reflexivity.
  - cbn [map nest wrap opener group].
    destruct (decide (g ≠ "")) as [_ | Hc]; [| contradiction].
    fold (opener). rewrite IH, <- app_assoc. reflexivity.
Qed.

(** X20: on a handler derived with the groups [g :: rest] only, a record
    with attributes gets the built-in fields plus one chain of maps
    [g: {... {attributes}}]: the attributes go into the innermost group,
    each through the hook called with the whole group path and then
    [extractValue], and none of them is inspected for an error report. *)
Theorem nested_groups_document (h : handler) (r : slogRecord) (g : string)
    (rest : list string) :
  goas h = map opener (g :: rest) ->
  Forall (fun name => name ≠ "") (g :: rest) ->
  Attrs r ≠ [] ->
  Handle h r
  = <[g := OMap (wrap rest
                   (fold_left
                      (fun m a =>
                         let a := replaceAttr h (g :: rest) a in
                         <[Key a := extractValue (Val a)]> m)
                      (Attrs r) ∅))]>
      (baseFields h r).
Proof.
  intros Hgoas Hnames Hattrs.
  assert (Heff : effectiveGoas h r = opener g :: map opener rest).
  { rewrite effectiveGoas_with_attrs; [exact Hgoas |].
    unfold NumAttrs. destruct (Attrs r); [contradiction | discriminate]. }
  inversion Hnames as [| g' rest' Hg Hrest]; subst.
  rewrite Handle_nest, Heff. cbn [scanGoas nest opener group].
  destruct (decide (g ≠ "")) as [_ | Hc]; [| contradiction].
  fold (opener). rewrite nest_openers by exact Hrest. cbn [app].
  reflexivity.
Qed.

Lemma nested_groups_document_witness :
  Handle (WithGroup (WithGroup (TestValues.logger None) "a") "b")
         (TestValues.record LevelInfo "m" [mkAttr ErrorKey (StringValue "inner")])
  = <["a" := OMap (<["b" := OMap (<[ErrorKey := OString "inner"]> ∅)]> ∅)]>
      (baseFields (TestValues.logger None) (TestValues.record LevelInfo "m" [])).
Proof.
  rewrite (nested_groups_document
             (WithGroup (WithGroup (TestValues.logger None) "a") "b")
             (TestValues.record LevelInfo "m" [mkAttr ErrorKey (StringValue "inner")])
             "a" ["b"] eq_refl).
  - reflexivity.
  - repeat constructor; discriminate.
  - discriminate.
Defined.

(* ===================================================================== *)
(** ** NewReportLocation                                                  *)
(* ===================================================================== *)


